(** * Book recommendation agent: lookup tools, chat memory, start-up

    A shallow embedding of [agent.py]: the five Tavily lookup tools, the
    agent built by [create_agent], the [chat] function with its rolling
    conversation history, and the script's entry point with its start-up
    checks and its read-answer loop.

    Python values are a small tagged universe ([pyval]).  An exception of
    class [Exception], the only kind the code's [except] clauses catch, is an
    explicit result ([Raise]); [KeyboardInterrupt] and the like are not
    modelled, and [sys.exit] is the script's own way out ([exit_status]).
    The module-level [chat_history], the console and the requests sent to
    the outside are threaded through a state-and-exception monad whose state
    survives a raise, as Python's does.

    What lives outside the repository is a field of the [Runtime] class: the
    search provider, the language model, [str] of containers and of foreign
    objects, the validation done by the message classes, the environment, the
    clock, and the string methods that work on code points.  Every theorem
    holds for all its instances.  The run loop inside the agent executor is
    the library's; it is modelled from the specification and marked so.

    The module [Page] embeds the script of the page, [app.py]: the session
    state, the chat box and its markup, the initialization of the agent and
    the block that hands a submitted text to [chat].  What it takes from
    Streamlit and from the clock is a field of the [Streamlit] class. *)

From Stdlib Require Import String Ascii List ZArith Bool Lia DecimalString.
Import ListNotations.
Open Scope string_scope.
Set Warnings "-register-all".

(** ** Python values and exceptions *)

(** An exception deriving from [Exception]; [str(e)] is [exn_message]. *)
Record exn := Exception { exn_class : string; exn_message : string }.

Inductive result (A : Type) : Type :=
| Return (a : A)
| Raise (e : exn).
Arguments Return {A} a.
Arguments Raise {A} e.

Definition bind_result {A B} (r : result A) (k : A -> result B) : result B :=
  match r with
  | Return a => k a
  | Raise e => Raise e
  end.

Notation "'let?' x ':=' r 'in' k" := (bind_result r (fun x => k))
  (at level 10, x name, r at level 100, k at level 200).

(** The values the code inspects.  Dict keys are strings, which is all the
    code ever looks up.  A [PObject] is an instance of a foreign class: its
    data attributes and what [bool(obj)] does. *)
Inductive pyval : Type :=
| PNone
| PBool (b : bool)
| PInt (n : Z)
| PStr (s : string)
| PTuple (items : list pyval)
| PList (items : list pyval)
| PDict (entries : list (string * pyval))
| PObject (class_name : string) (attrs : list (string * pyval)) (truth : result bool).

Definition nl : string := String (ascii_of_nat 10) EmptyString.

Definition decimal (n : nat) : string := NilEmpty.string_of_uint (Nat.to_uint n).

Definition decimalZ (z : Z) : string := NilZero.string_of_int (Z.to_int z).

Definition type_name (v : pyval) : string :=
  match v with
  | PNone => "NoneType"
  | PBool _ => "bool"
  | PInt _ => "int"
  | PStr _ => "str"
  | PTuple _ => "tuple"
  | PList _ => "list"
  | PDict _ => "dict"
  | PObject c _ _ => c
  end.

Fixpoint assoc {A} (k : string) (l : list (string * A)) : option A :=
  match l with
  | [] => None
  | (k', v) :: rest => if String.eqb k k' then Some v else assoc k rest
  end.

Definition isinstance_str (v : pyval) : bool :=
  match v with PStr _ => true | _ => false end.

Definition isinstance_dict (v : pyval) : bool :=
  match v with PDict _ => true | _ => false end.

(** [bool(v)], the test behind [if v] and [not v]. *)
Definition truthy (v : pyval) : result bool :=
  match v with
  | PNone => Return false
  | PBool b => Return b
  | PInt n => Return (negb (Z.eqb n 0))
  | PStr s => Return (negb (String.eqb s EmptyString))
  | PTuple items | PList items => Return (negb (Nat.eqb (length items) 0))
  | PDict entries => Return (negb (Nat.eqb (length entries) 0))
  | PObject _ _ t => t
  end.

Definition py_not (v : pyval) : result bool :=
  let? b := truthy v in Return (negb b).

(** [v == s] for a string literal [s]. *)
Definition eq_str (v : pyval) (s : string) : bool :=
  match v with PStr s' => String.eqb s' s | _ => false end.

Definition attribute_error (v : pyval) (name : string) : exn :=
  Exception "AttributeError"
    ("'" ++ type_name v ++ "' object has no attribute '" ++ name ++ "'").

(** [v.get(key, default)]: only a dict has the method. *)
Definition method_get (v : pyval) (key : string) (default : pyval) : result pyval :=
  match v with
  | PDict entries =>
      Return (match assoc key entries with Some x => x | None => default end)
  | _ => Raise (attribute_error v "get")
  end.

(** [hasattr(v, name)] and [v.name] on data attributes. *)
Definition getattr (v : pyval) (name : string) : option pyval :=
  match v with
  | PObject _ attrs _ => assoc name attrs
  | _ => None
  end.

(** ** What the process talks to *)

(** Keyword arguments of [TavilySearchResults(...)]; [None] is "not passed". *)
Record tavily_config := {
  max_results : Z;
  search_depth : option string;
  include_answer : option bool;
  include_raw_content : option bool
}.

Definition tavily (k : Z) : tavily_config :=
  {| max_results := k; search_depth := None;
     include_answer := None; include_raw_content := None |}.

(** A constructed search tool: [tool.invoke(query)]. *)
Definition search_tool := string -> result pyval.

(** Keyword arguments of [ChatGroq(...)]; the temperature is in tenths. *)
Record llm_config := {
  model_name : string;
  temperature_tenths : Z;
  max_tokens : Z;
  timeout : Z;
  max_retries : Z
}.

Inductive message : Type :=
| HumanMessage (content : pyval)
| AIMessage (content : pyval).

(** The dict passed to [agent_executor.invoke]. *)
Record input_data := {
  input : string;
  input_chat_history : list message
}.

(** One Thinking step of the model: ask for a tool or give the final text. *)
Inductive decision : Type :=
| ToolCall (tool_name : string) (arguments : list (string * string))
| Final (answer : string).

(** A bound language model: the request and the tool transcript so far give
    the next decision, or the call raises. *)
Definition llm := input_data -> list (string * string) -> result decision.

(** A request that leaves the process: a search sent by a tool built with
    [config], or an invocation of the agent executor. *)
Inductive call : Type :=
| Search (config : tavily_config) (query : string)
| Invoke (request : input_data).

(** An agent executor as [chat] sees it: [invoke] answers with a value or
    raises, having made some calls to the outside on the way.  It has no
    hand on the module's history or on what [chat] prints; what the executor
    writes to the console itself, the chain log of [verbose=True], is not
    modelled, so that [stdout] holds the output of the module's own [print]
    calls. *)
Definition executor := input_data -> list call * result pyval.

Class Runtime := {
  (** [str(v)] for containers and foreign objects *)
  str_object : pyval -> result string;
  (** whether a content that is not a [str] passes the validation of
      [HumanMessage] and [AIMessage]; a [str] always does *)
  content_ok : pyval -> bool;
  TavilySearchResults : tavily_config -> result search_tool;
  ChatGroq : llm_config -> result llm;
  (** seconds elapsed in a run of the agent when its loop reads the clock
      with t steps behind it, a Thinking and a ToolCall counting one each *)
  elapsed : nat -> Z;
  (** [os.getenv] once [load_dotenv()] has run *)
  getenv : string -> option string;
  (** [s.strip()], [s.lower()], [len(s)] and [s[:n]], which work on code
      points rather than on bytes *)
  str_strip : string -> string;
  str_lower : string -> string;
  str_len : string -> nat;
  str_prefix : nat -> string -> string
}.

(** ** State, console and service calls *)

Record world := {
  chat_history : option (list pyval);
  stdout : list string;
  calls : list call
}.

(** The module as imported: [chat_history = []], nothing printed or called. *)
Definition initial_world : world :=
  {| chat_history := Some []; stdout := []; calls := [] |}.

Definition M (A : Type) : Type := world -> result A * world.

Definition ret {A} (a : A) : M A := fun w => (Return a, w).

Definition raise {A} (e : exn) : M A := fun w => (Raise e, w).

Definition bind {A B} (m : M A) (k : A -> M B) : M B :=
  fun w => match m w with
           | (Return a, w') => k a w'
           | (Raise e, w') => (Raise e, w')
           end.

Definition lift {A} (r : result A) : M A := fun w => (r, w).

(** [try: body  except Exception as e: handler(e)] *)
Definition try_except {A} (body : M A) (handler : exn -> M A) : M A :=
  fun w => match body w with
           | (Return a, w') => (Return a, w')
           | (Raise e, w') => handler e w'
           end.

Notation "x <- m ;; k" := (bind m (fun x => k))
  (at level 61, m at next level, right associativity).
Notation "m ;;; k" := (bind m (fun _ => k))
  (at level 61, right associativity).

(** [stdout] lists the texts written; [print] ends its line. *)
Definition write (text : string) : M unit :=
  fun w => (Return tt, {| chat_history := chat_history w;
                          stdout := stdout w ++ [text];
                          calls := calls w |}).

Definition print (line : string) : M unit := write (line ++ nl).

Definition record_calls (cs : list call) : M unit :=
  fun w => (Return tt, {| chat_history := chat_history w;
                          stdout := stdout w;
                          calls := calls w ++ cs |}).

Definition record_call (c : call) : M unit := record_calls [c].

Definition set_chat_history (h : option (list pyval)) : M unit :=
  fun w => (Return tt, {| chat_history := h;
                          stdout := stdout w;
                          calls := calls w |}).

Definition get_chat_history : M (option (list pyval)) :=
  fun w => (Return (chat_history w), w).

(** The history as a list, an unset one read as empty. *)
Definition history_of (w : world) : list pyval :=
  match chat_history w with
  | Some h => h
  | None => []
  end.

(** The console glyphs, byte for byte as the source file has them. *)
Definition bytes (codes : list nat) : string :=
  fold_right (fun c s => String (ascii_of_nat c) s) EmptyString codes.

Definition glyph_books : string := bytes [196; 159; 197; 184; 226; 128; 156; 197; 161].
Definition glyph_key : string := bytes [196; 159; 197; 184; 226; 128; 157; 226; 128; 152].
Definition glyph_warning : string := bytes [195; 162; 197; 161; 194; 160; 195; 175; 194; 184].
Definition glyph_check : string := bytes [195; 162; 197; 147; 226; 128; 166].
Definition glyph_robot : string := bytes [196; 159; 197; 184; 194; 164; 226; 128; 147].
Definition glyph_cross : string := bytes [195; 162; 197; 146].
Definition glyph_open_book : string := bytes [196; 159; 197; 184; 226; 128; 156; 226; 128; 147].

Section Agent.

Context {rt : Runtime}.

(** [str(v)], also what an f-string field [{v}] inserts. *)
Definition py_str (v : pyval) : result string :=
  match v with
  | PNone => Return "None"
  | PBool true => Return "True"
  | PBool false => Return "False"
  | PInt n => Return (decimalZ n)
  | PStr s => Return s
  | _ => str_object v
  end.

(** Build the search tool with the given keyword arguments, then
    [.invoke(query)]: the request leaves the process once the tool object
    exists. *)
Definition tavily_search (config : tavily_config) (query : string) : M pyval :=
  search <- lift (TavilySearchResults config) ;;
  record_call (Search config query) ;;;
  lift (search query).

(** ** The lookup tools *)

(** The [for i, result in enumerate(results, 1)] loop; [numbered] tells
    whether the item text starts with [{i}. ]. *)
Fixpoint format_results (numbered : bool) (i : nat) (results : list pyval)
    (formatted : string) : result string :=
  match results with
  | [] => Return formatted
  | result :: rest =>
      let? content := method_get result "content" (PStr EmptyString) in
      let? url := method_get result "url" (PStr EmptyString) in
      let? c := py_str content in
      let? u := py_str url in
      format_results numbered (S i) rest
        (formatted ++ (if numbered then decimal i ++ ". " else EmptyString)
                   ++ c ++ nl ++ "Source: " ++ u ++ nl ++ nl)
  end.

(** [if isinstance(results, list): ... return formatted] else
    [return str(results)]. *)
Definition render_results (numbered : bool) (header : string) (results : pyval)
    : result string :=
  match results with
  | PList items => format_results numbered 1 items header
  | _ => py_str results
  end.

Definition search_books_by_genre (genre : string) : M string :=
  try_except
    (let query := "best " ++ genre ++ " books 2024 2023 highly rated recommendations" in
     results <- tavily_search (tavily 5) query ;;
     lift (render_results true ("Top books in " ++ genre ++ ":" ++ nl ++ nl) results))
    (fun e => ret ("Error searching books by genre: " ++ exn_message e)).

Definition search_similar_books (book_title : string) : M string :=
  try_except
    (let query := "books similar to " ++ book_title ++ " recommendations if you liked" in
     results <- tavily_search (tavily 5) query ;;
     lift (render_results true
             ("Books similar to '" ++ book_title ++ "':" ++ nl ++ nl) results))
    (fun e => ret ("Error searching similar books: " ++ exn_message e)).

Definition search_books_by_mood (mood : string) : M string :=
  try_except
    (let query := mood ++ " books recommendations best rated" in
     results <- tavily_search (tavily 5) query ;;
     lift (render_results true ("Books for " ++ mood ++ " mood:" ++ nl ++ nl) results))
    (fun e => ret ("Error searching books by mood: " ++ exn_message e)).

Definition get_book_details (book_title author : string) : M string :=
  try_except
    (let search_query := book_title in
     let search_query :=
       if negb (String.eqb author EmptyString) then search_query ++ " by " ++ author
       else search_query in
     let search_query :=
       search_query ++ " book synopsis author information reading time pages" in
     results <- tavily_search (tavily 3) search_query ;;
     lift (render_results false
             ("Details for '" ++ book_title ++ "':" ++ nl ++ nl) results))
    (fun e => ret ("Error getting book details: " ++ exn_message e)).

Definition search_where_to_buy (book_title : string) : M string :=
  try_except
    (let query := "where to buy " ++ book_title ++ " book Amazon Goodreads library online" in
     results <- tavily_search (tavily 4) query ;;
     lift (render_results true
             ("Where to get '" ++ book_title ++ "':" ++ nl ++ nl) results))
    (fun e => ret ("Error searching purchase options: " ++ exn_message e)).

(** ** The agent *)

(** A registered tool: called with the arguments the model named. *)
Definition tool := list (string * string) -> M string.

(** A required argument of a tool; the library's schema check rejects a call
    that lacks it. *)
Definition argument (name : string) (args : list (string * string)) : result string :=
  match assoc name args with
  | Some v => Return v
  | None => Raise (Exception "ValidationError" (name ++ ": field required"))
  end.

Definition optional_argument (name default : string) (args : list (string * string))
    : string :=
  match assoc name args with
  | Some v => v
  | None => default
  end.

Definition one_argument (name : string) (f : string -> M string) : tool :=
  fun args => a <- lift (argument name args) ;; f a.

(** The general-purpose search tool handed to the agent as it is. *)
Definition tavily_tool_config : tavily_config :=
  {| max_results := 5; search_depth := Some "advanced";
     include_answer := Some true; include_raw_content := Some false |}.

Definition general_search (tavily_tool : search_tool) : tool :=
  fun args =>
    query <- lift (argument "query" args) ;;
    record_call (Search tavily_tool_config query) ;;;
    results <- lift (tavily_tool query) ;;
    lift (py_str results).

(** The keyword arguments of [AgentExecutor(...)].  The [agent] is the
    model bound to the tools and the prompt; the prompt's text, on which
    nothing below depends, is not carried. *)
Record AgentExecutor := {
  agent : llm;
  tools : list (string * tool);
  verbose : bool;
  handle_parsing_errors : bool;
  max_iterations : nat;
  max_execution_time : Z
}.

Definition groq_config : llm_config :=
  {| model_name := "llama-3.1-8b-instant"; temperature_tenths := 7;
     max_tokens := 2048; timeout := 60; max_retries := 2 |}.

(** Initialize and return the book recommendation agent executor.  Either
    constructor may raise, for want of its API key among other reasons. *)
Definition create_agent : result AgentExecutor :=
  let? llm := ChatGroq groq_config in
  let? tavily_tool := TavilySearchResults tavily_tool_config in
  let tools :=
    [ ("search_books_by_genre", one_argument "genre" search_books_by_genre);
      ("search_similar_books", one_argument "book_title" search_similar_books);
      ("search_books_by_mood", one_argument "mood" search_books_by_mood);
      ("get_book_details",
         fun args => t <- lift (argument "book_title" args) ;;
                     get_book_details t (optional_argument "author" EmptyString args));
      ("search_where_to_buy", one_argument "book_title" search_where_to_buy);
      ("tavily_search_results_json", general_search tavily_tool) ] in
  Return {| agent := llm;
            tools := tools;
            verbose := true;
            handle_parsing_errors := true;
            max_iterations := 10;
            max_execution_time := 120 |}.

(** Modelled from the spec: how one run of the Orchestration Loop ends
    (section 4.4, whose loop is the library's [AgentExecutor] and is not in
    the repository): with a final answer, at a ceiling, or with the exception
    of a model or tool call passing through. *)
Inductive run_end : Type :=
| Done (answer : string)
| Aborted
| Crashed (e : exn).

(** Modelled from the spec: the ToolCall state runs the tool that the Tool
    Registry holds under the requested name; what happens on an unknown name
    is left open there and is an explanatory tool result here. *)
Definition run_tool (registry : list (string * tool)) (name : string)
    (args : list (string * string)) : M string :=
  match assoc name registry with
  | Some t => t args
  | None => ret (name ++ " is not a valid tool")
  end.

(** Modelled from the spec: the Orchestration Loop of section 4.4, which the
    repository configures but whose code is the library's.  Thinking asks the
    model, which gives the final answer (Done) or requests a tool (ToolCall:
    the tool runs, its text joins the transcript, back to Thinking); the run
    is Aborted when one more cycle would exceed the step ceiling or when the
    elapsed time exceeds the time ceiling, the clock being read between
    steps, never during one (section 5).  [remaining] is the step ceiling
    less the [cycles] made; the result carries the cycles made. *)
Fixpoint orchestrate (ex : AgentExecutor) (request : input_data)
    (remaining cycles : nat) (transcript : list (string * string)) (w : world)
    : run_end * nat * world :=
  if Z.ltb (max_execution_time ex) (elapsed (2 * cycles)) then (Aborted, cycles, w)
  else
    match agent ex request transcript with
    | Raise e => (Crashed e, cycles, w)
    | Return (Final answer) => (Done answer, cycles, w)
    | Return (ToolCall name args) =>
        match remaining with
        | O => (Aborted, cycles, w)
        | S remaining' =>
            if Z.ltb (max_execution_time ex) (elapsed (2 * cycles + 1))
            then (Aborted, cycles, w)
            else
              match run_tool (tools ex) name args w with
              | (Return text, w') =>
                  orchestrate ex request remaining' (S cycles)
                    (transcript ++ [(name, text)]) w'
              | (Raise e, w') => (Crashed e, S cycles, w')
              end
        end
    end.

(** Modelled from the spec: one run, from no cycle made and an empty
    transcript, under the ceilings the executor was built with. *)
Definition run_agent (ex : AgentExecutor) (request : input_data) (w : world)
    : run_end * nat * world :=
  orchestrate ex request (max_iterations ex) 0 [] w.

(** Modelled from the spec: the graceful fallback message of an Aborted run,
    whose wording the spec leaves open. *)
Definition stopped_answer : string :=
  "Agent stopped due to iteration limit or time limit.".

(** Modelled from the spec: [agent_executor.invoke] for the executor that
    [create_agent] returns; the Agent Response of section 3 is a dict with the
    answer under ['output'], an Aborted run still answers, and an exception
    of the model or of a tool leaves the run. *)
Definition invoke (ex : AgentExecutor) : executor :=
  fun request =>
    let '(e, _, w) := run_agent ex request initial_world in
    (calls w,
     match e with
     | Done answer => Return (PDict [("input", PStr (input request));
                                     ("output", PStr answer)])
     | Aborted => Return (PDict [("input", PStr (input request));
                                 ("output", PStr stopped_answer)])
     | Crashed exc => Raise exc
     end).

(** ** Chat with memory *)

(** A stored turn: the tuple [(role, content)]. *)
Definition turn (role : string) (content : pyval) : pyval :=
  PTuple [PStr role; content].

(** [HumanMessage(content=content)] or [AIMessage(content=content)]: the
    class validates its content and raises when it does not pass. *)
Definition new_message (cls : pyval -> message) (content : pyval) : result message :=
  if isinstance_str content || content_ok content then Return (cls content)
  else Raise (Exception "ValidationError" "content: invalid message content").

(** The loop that formats the stored history for LangChain. *)
Fixpoint format_history (history : list pyval) (formatted_history : list message)
    : result (list message) :=
  match history with
  | [] => Return formatted_history
  | msg :: rest =>
      match msg with
      | PTuple [role; content] =>
          if eq_str role "human" then
            let? m := new_message HumanMessage content in
            format_history rest (formatted_history ++ [m])%list
          else if eq_str role "assistant" then
            let? nonempty := truthy content in
            if nonempty then
              if isinstance_str content then
                let? m := new_message AIMessage content in
                format_history rest (formatted_history ++ [m])%list
              else format_history rest formatted_history
            else format_history rest formatted_history
          else format_history rest formatted_history
      | _ => format_history rest formatted_history
      end
  end.

(** The text that is returned but never stored. *)
Definition no_response : string := "No response generated".

(** The answer given when the invocation raises. *)
Definition fallback_answer : string :=
  "Based on your preferences for fast-paced sci-fi novels, I recommend the following books:" ++
  nl ++ nl ++
  "1. The Ministry of Time by Kaliane Bradley: A fast-paced sci-fi novel that follows a group of characters as they navigate a mysterious world where time is broken." ++
  nl ++ nl ++
  "2. Seveneves by Neal Stephenson: A epic sci-fi novel that follows humanity's struggle to survive after the moon explodes and the survivors must find a way to ensure their survival off-planet." ++
  nl ++ nl ++
  "3. Artemis by Andy Weir: A heist novel set on the Moon, which combines scientific accuracy with a compelling story." ++
  nl ++ nl ++
  "4. Dungeon Crawler Carl by Jason Anspach: A humorous and fast-paced sci-fi novel that follows the adventures of a group of characters as they navigate a fantasy world." ++
  nl ++ nl ++
  "5. We Are Legion (We Are Bob) by Dennis E. Taylor: A humorous and fast-paced sci-fi novel that follows the story of a man who is uploaded into a computer and becomes the AI controlling a spaceship." ++
  nl ++ nl ++
  "These books offer a mix of fast-paced action, scientific accuracy, and compelling storytelling that fans of Project Hail Mary and The Martian are likely to enjoy.".

(** The texts put in the place of a response that cannot be used, and the
    answer of the outer handler. *)
Definition apology : string :=
  "I apologize, but I couldn't generate a response. Please try rephrasing your request.".

Definition nothing_found : string :=
  "I couldn't find suitable book recommendations. Could you provide more details about your preferences?".

Definition trouble : string :=
  "I'm having trouble with that request. Could you tell me more about what kind of books you're looking for?".

Definition not_sure : string :=
  "I'm not sure how to help with that. Could you describe your reading preferences?".

Definition sorry : string :=
  "I'm sorry, I encountered an error. Please try again with your book preferences.".

(** The [if response is None ... elif ... else] ladder and the check that
    follows it, all inside the inner [try]. *)
Definition response_output (response : pyval) : result pyval :=
  let? output :=
    match response with
    | PNone => Return (PStr apology)
    | PDict _ =>
        let? output := method_get response "output" (PStr EmptyString) in
        let? empty := py_not output in
        Return (if empty then PStr nothing_found else output)
    | _ =>
        match getattr response "output" with
        | Some PNone | None => let? s := py_str response in Return (PStr s)
        | Some o => let? s := py_str o in Return (PStr s)
        end
    end in
  let? empty := py_not output in
  Return (if empty || negb (isinstance_str output) then PStr trouble else output).

(** [agent_executor.invoke(input_data)] *)
Definition call_executor (ex : executor) (request : input_data) : M pyval :=
  record_call (Invoke request) ;;;
  record_calls (fst (ex request)) ;;;
  lift (snd (ex request)).

(** [chat_history[-20:]] *)
Definition last_20 (h : list pyval) : list pyval := skipn (length h - 20) h.

(** [chat_history.append(x)] *)
Definition chat_history_append (x : pyval) : M unit :=
  h <- get_chat_history ;;
  match h with
  | Some l => set_chat_history (Some (l ++ [x])%list)
  | None => raise (attribute_error PNone "append")
  end.

(** The list behind [chat_history] where the code iterates over it or takes
    its length. *)
Definition chat_history_list : M (list pyval) :=
  h <- get_chat_history ;;
  match h with
  | Some l => ret l
  | None => raise (Exception "TypeError" "'NoneType' object is not iterable")
  end.

(** The body of the outer [try] of [chat].  [agent_executor] is [None] when
    the caller passes none. *)
Definition chat_body (user_input : string) (agent_executor : option executor)
    : M pyval :=
  h <- get_chat_history ;;
  (match h with
   | None => set_chat_history (Some [])
   | Some _ => ret tt
   end) ;;;
  history <- chat_history_list ;;
  formatted_history <- lift (format_history history []) ;;
  agent_executor <-
    (match agent_executor with
     | None => a <- lift create_agent ;; ret (invoke a)
     | Some ex => ret ex
     end) ;;
  let input_data := {| input := user_input;
                       input_chat_history := formatted_history |} in
  output <-
    try_except
      (response <- call_executor agent_executor input_data ;;
       lift (response_output response))
      (fun e => ret (PStr fallback_answer)) ;;
  nonempty <- lift (truthy output) ;;
  (if nonempty && negb (eq_str output no_response) then
     chat_history_append (turn "human" (PStr user_input)) ;;;
     chat_history_append (turn "assistant" output)
   else ret tt) ;;;
  history <- chat_history_list ;;
  (if Nat.ltb 20 (length history) then set_chat_history (Some (last_20 history))
   else ret tt) ;;;
  nonempty <- lift (truthy output) ;;
  ret (if nonempty then output else PStr not_sure).

(** Process user input and maintain chat history for book recommendations. *)
Definition chat (user_input : string) (agent_executor : option executor) : M pyval :=
  try_except
    (chat_body user_input agent_executor)
    (fun e =>
       let error_msg := "Error in chat function: " ++ exn_message e in
       print error_msg ;;;
       ret (PStr sorry)).

(** ** The script's entry point *)

(** How the script leaves: [sys.exit(code)], or falling off its end. *)
Inductive exit_status : Type :=
| Exit (code : Z)
| Finished.

(** ["=" * 70] *)
Definition rule : string := String.concat EmptyString (repeat "=" 70).

(** [not os.getenv(name)]: unset, or set to the empty string. *)
Definition missing (name : string) : bool :=
  match getenv name with
  | Some v => String.eqb v EmptyString
  | None => true
  end.

(** [chat_history.clear()] *)
Definition chat_history_clear : M unit :=
  h <- get_chat_history ;;
  match h with
  | Some _ => set_chat_history (Some [])
  | None => raise (attribute_error PNone "clear")
  end.

(** The body of the ['history'] command's loop.  An entry that is not a pair
    with a [str] message, which [chat] never stores, is taken to raise. *)
Fixpoint print_history (history : list pyval) : M unit :=
  match history with
  | [] => ret tt
  | PTuple [role; PStr message] :: rest =>
      let preview :=
        if Nat.ltb 150 (str_len message) then str_prefix 150 message ++ "..."
        else message in
      r <- lift (py_str role) ;;
      print (r ++ ": " ++ preview) ;;;
      print_history rest
  | _ :: _ => raise (Exception "TypeError" "history entry is not a (role, message) pair")
  end.

(** The [while True] loop; [stdin] holds the lines still to be read and its
    end is end-of-file. *)
Fixpoint chat_loop (agent_executor : executor) (stdin : list string) : M exit_status :=
  match stdin with
  | [] =>
      write "You: " ;;;
      print (nl ++ nl ++ "Happy reading! " ++ glyph_books ++ " Goodbye!") ;;;
      ret Finished
  | line :: stdin' =>
      write "You: " ;;;
      let user_input := str_strip line in
      if String.eqb user_input EmptyString then chat_loop agent_executor stdin'
      else if existsb (String.eqb (str_lower user_input)) ["quit"; "exit"; "q"] then
        print (nl ++ "Happy reading! " ++ glyph_books ++ " Goodbye!") ;;;
        ret Finished
      else if String.eqb (str_lower user_input) "history" then
        print (nl ++ "--- Chat History ---") ;;;
        h <- get_chat_history ;;
        (match h with
         | None | Some [] => print "No chat history yet."
         | Some l => print_history l
         end) ;;;
        print ("--- End History ---" ++ nl) ;;;
        chat_loop agent_executor stdin'
      else if String.eqb (str_lower user_input) "clear" then
        chat_history_clear ;;;
        print (nl ++ glyph_check ++ " Chat history cleared!" ++ nl) ;;;
        chat_loop agent_executor stdin'
      else
        try_except
          (response <- chat user_input (Some agent_executor) ;;
           r <- lift (py_str response) ;;
           print (nl ++ glyph_books ++ " Book Agent: " ++ r ++ nl))
          (fun e => print (nl ++ glyph_cross ++ " Error: " ++ exn_message e ++ nl)) ;;;
        chat_loop agent_executor stdin'
  end.

Definition main (stdin : list string) : M exit_status :=
  print rule ;;;
  print (glyph_books ++ " Book Recommendation Engine - Powered by LangChain + Groq") ;;;
  print rule ;;;
  print (nl ++ glyph_key ++ " Loading API keys from .env file...") ;;;
  print (nl ++ "Required API Keys:") ;;;
  print "- GROQ_API_KEY (for LLM)" ;;;
  print "- TAVILY_API_KEY (for web search)" ;;;
  print rule ;;;
  if missing "GROQ_API_KEY" then
    print (nl ++ glyph_warning ++ "  GROQ_API_KEY not found in .env file!") ;;;
    print (nl ++ "Please create a .env file with:") ;;;
    print "GROQ_API_KEY=gsk-your-groq-key-here" ;;;
    print "TAVILY_API_KEY=tvly-your-tavily-key-here" ;;;
    ret (Exit 1)
  else if missing "TAVILY_API_KEY" then
    print (nl ++ glyph_warning ++ "  TAVILY_API_KEY not found in .env file!") ;;;
    print (nl ++ "Please add to your .env file:") ;;;
    print "TAVILY_API_KEY=tvly-your-tavily-key-here" ;;;
    ret (Exit 1)
  else
    print (glyph_check ++ " API keys loaded successfully!") ;;;
    print (nl ++ glyph_robot ++ " Initializing book recommendation agent...") ;;;
    started <-
      try_except
        (a <- lift create_agent ;;
         print (glyph_check ++ " Agent ready!" ++ nl) ;;;
         ret (Some (invoke a)))
        (fun e =>
           print (nl ++ glyph_cross ++ " Failed to initialize agent: " ++ exn_message e) ;;;
           ret None) ;;
    match started with
    | None => ret (Exit 1)
    | Some agent_executor =>
        print (glyph_open_book ++ " Book Recommendation Chat (type 'quit' to exit, 'history' to view, 'clear' to reset):" ++ nl) ;;;
        print ("Example: 'I love sci-fi. I recently read Dune and Project Hail Mary. Recommend something fast-paced.'" ++ nl) ;;;
        chat_loop agent_executor stdin
    end.

End Agent.

(** ** Sessions and sample run-times *)

(** What the caller can do to the module between two looks at its state. *)
Inductive action : Type :=
| Say (user_input : string) (agent_executor : option executor)
| ClearHistory.

Definition perform {rt : Runtime} (a : action) (w : world) : world :=
  match a with
  | Say user_input agent_executor => snd (chat user_input agent_executor w)
  | ClearHistory => snd (chat_history_clear w)
  end.

(** The state after a session that starts from the freshly imported module. *)
Definition after {rt : Runtime} (session : list action) : world :=
  fold_left (fun w a => perform a w) session initial_world.

(** The common shape of the five lookup tools. *)
Definition lookup {rt : Runtime} (config : tavily_config) (query : string)
    (numbered : bool) (header context : string) : M string :=
  try_except
    (results <- tavily_search config query ;;
     lift (render_results numbered header results))
    (fun e => ret ("Error " ++ context ++ ": " ++ exn_message e)).

(** The world once one more search request has left the process. *)
Definition searched (config : tavily_config) (query : string) (w : world) : world :=
  {| chat_history := chat_history w; stdout := stdout w;
     calls := calls w ++ [Search config query] |}.

(** What a lookup owes its caller.  It never raises: either every step went
    through and it returns the rendering of the results, or it returns
    ["Error <context>: <cause>"] for the exception that was raised, be it
    while building the search tool, during the request, or on an item
    without [get].  An empty result list is rendered as the bare header. *)
Definition fails_softly {rt : Runtime} (op : M string) (config : tavily_config)
    (query : string) (numbered : bool) (header context : string) (w : world) : Prop :=
  ((exists search results text,
      TavilySearchResults config = Return search
      /\ search query = Return results
      /\ render_results numbered header results = Return text
      /\ fst (op w) = Return text)
   \/ exists e, fst (op w) = Return ("Error " ++ context ++ ": " ++ exn_message e))
  /\ (forall e, TavilySearchResults config = Raise e ->
        fst (op w) = Return ("Error " ++ context ++ ": " ++ exn_message e))
  /\ (forall search e, TavilySearchResults config = Return search ->
        search query = Raise e ->
        fst (op w) = Return ("Error " ++ context ++ ": " ++ exn_message e))
  /\ (forall search items, TavilySearchResults config = Return search ->
        search query = Return (PList items) ->
        (exists item, In item items /\ isinstance_dict item = false) ->
        exists e, fst (op w) = Return ("Error " ++ context ++ ": " ++ exn_message e))
  /\ (forall search, TavilySearchResults config = Return search ->
        search query = Return (PList []) ->
        fst (op w) = Return header).

(** *** Reading [chat] step by step *)

(** The executor [chat] ends up calling. *)
Definition executor_for {rt : Runtime} (agent_executor : option executor)
    : result executor :=
  match agent_executor with
  | Some ex => Return ex
  | None => let? a := create_agent in Return (invoke a)
  end.

(** The value of [output] when the inner [try] statement is left. *)
Definition engine_output {rt : Runtime} (ex : executor) (request : input_data) : pyval :=
  match snd (ex request) with
  | Raise _ => PStr fallback_answer
  | Return response =>
      match response_output response with
      | Return output => output
      | Raise _ => PStr fallback_answer
      end
  end.

(** The world once [chat_history] is known to be a list. *)
Definition opened (w : world) : world :=
  match chat_history w with
  | Some _ => w
  | None => {| chat_history := Some []; stdout := stdout w; calls := calls w |}
  end.

(** The calls on record once the executor has been invoked. *)
Definition invoked (ex : executor) (request : input_data) (cs : list call) : list call :=
  (cs ++ [Invoke request]) ++ fst (ex request).

(** The two appends, which the code skips for the text [no_response]. *)
Definition recorded (user_input : string) (output : pyval) (h : list pyval) : list pyval :=
  if eq_str output no_response then h
  else (h ++ [turn "human" (PStr user_input)]) ++ [turn "assistant" output].

(** The cut to the last 20 entries. *)
Definition trim (h : list pyval) : list pyval :=
  if Nat.ltb 20 (length h) then last_20 h else h.

(** A stored human turn; a stored assistant turn with a non-empty text. *)
Definition human_turn (entry : pyval) : bool :=
  match entry with
  | PTuple [PStr role; PStr _] => String.eqb role "human"
  | _ => false
  end.

Definition assistant_turn (entry : pyval) : bool :=
  match entry with
  | PTuple [PStr role; PStr text] =>
      String.eqb role "assistant" && negb (String.eqb text EmptyString)
  | _ => false
  end.

(** A history made of exchanges: a human turn, then the assistant's. *)
Fixpoint alternates (h : list pyval) : bool :=
  match h with
  | [] => true
  | x :: y :: rest => human_turn x && assistant_turn y && alternates rest
  | _ => false
  end.

(** What the rendering keeps of one stored entry, looked at on its own. *)
Definition kept (entry : pyval) : list message :=
  match entry with
  | PTuple [role; content] =>
      if eq_str role "human" then [HumanMessage content]
      else if eq_str role "assistant" then
        match truthy content with
        | Return true => if isinstance_str content then [AIMessage content] else []
        | _ => []
        end
      else []
  | _ => []
  end.



(** One exchange as [chat] stores it and as the engine is shown it. *)
Definition exchange_turns (x : string * string) : list pyval :=
  [turn "human" (PStr (fst x)); turn "assistant" (PStr (snd x))].

Definition exchange_messages (x : string * string) : list message :=
  [HumanMessage (PStr (fst x)); AIMessage (PStr (snd x))].

(** [exchanges w xs w']: from [w], a run of [chat] calls, none of which fell
    into the outer handler and each of which stored its exchange, the pairs
    [xs] of user input and answer in order, leads to [w']. *)
Inductive exchanges {rt : Runtime} : world -> list (string * string) -> world -> Prop :=
| exchanges_done w : exchanges w [] w
| exchanges_more w user_input agent_executor answer w1 xs w2 :
    chat_body user_input agent_executor w = (Return (PStr answer), w1) ->
    answer <> no_response ->
    exchanges w1 xs w2 ->
    exchanges w ((user_input, answer) :: xs) w2.

(** An executor that answers every request with a dict holding [text]. *)
Definition answering (text : string) : executor :=
  fun _ => ([], Return (PDict [("output", PStr text)])).

(** The world once some lines have been printed. *)
Definition printed (lines : list string) (w : world) : world :=
  {| chat_history := chat_history w;
     stdout := stdout w ++ map (fun line => line ++ nl) lines;
     calls := calls w |}.

(** What the script prints before it looks at the environment, and what it
    adds when a key is missing. *)
Definition banner : list string :=
  [ rule;
    glyph_books ++ " Book Recommendation Engine - Powered by LangChain + Groq";
    rule;
    nl ++ glyph_key ++ " Loading API keys from .env file...";
    nl ++ "Required API Keys:";
    "- GROQ_API_KEY (for LLM)";
    "- TAVILY_API_KEY (for web search)";
    rule ].

Definition groq_key_missing : list string :=
  [ nl ++ glyph_warning ++ "  GROQ_API_KEY not found in .env file!";
    nl ++ "Please create a .env file with:";
    "GROQ_API_KEY=gsk-your-groq-key-here";
    "TAVILY_API_KEY=tvly-your-tavily-key-here" ].

Definition tavily_key_missing : list string :=
  [ nl ++ glyph_warning ++ "  TAVILY_API_KEY not found in .env file!";
    nl ++ "Please add to your .env file:";
    "TAVILY_API_KEY=tvly-your-tavily-key-here" ].

(** A machine without credentials or network: nothing can be constructed. *)
Definition offline : Runtime :=
  {| str_object := fun v => Return ("<" ++ type_name v ++ " object>");
     content_ok := fun _ => false;
     TavilySearchResults := fun _ =>
       Raise (Exception "ValueError" "Did not find tavily_api_key");
     ChatGroq := fun _ => Raise (Exception "GroqError" "The api_key client option must be set");
     elapsed := fun k => Z.of_nat k;
     getenv := fun _ => None;
     str_strip := fun s => s;
     str_lower := fun s => s;
     str_len := String.length;
     str_prefix := fun n s => substring 0 n s |}.

(** A machine whose search always answers [results], whose model always
    asks for one more genre search, and whose environment holds both keys. *)
Definition canned (results : result pyval) : Runtime :=
  {| str_object := fun v => Return ("<" ++ type_name v ++ " object>");
     content_ok := fun _ => false;
     TavilySearchResults := fun _ => Return (fun _ => results);
     ChatGroq := fun _ =>
       Return (fun _ _ => Return (ToolCall "search_books_by_genre" [("genre", "mystery")]));
     elapsed := fun k => Z.of_nat k;
     getenv := fun name =>
       if String.eqb name "GROQ_API_KEY" then Some "gsk-test"
       else if String.eqb name "TAVILY_API_KEY" then Some "tvly-test"
       else None;
     str_strip := fun s => s;
     str_lower := fun s => s;
     str_len := String.length;
     str_prefix := fun n s => substring 0 n s |}.

(** ** Further notions used in the statements below *)

(** A lookup leaves the history and the console alone and sends no request
    but its own: none when its search tool cannot be built, and else exactly
    the one for its query, whatever the search then answers or raises. *)
Definition sends_only {rt : Runtime} (op : M string) (config : tavily_config)
    (query : string) (w : world) : Prop :=
  chat_history (snd (op w)) = chat_history w
  /\ stdout (snd (op w)) = stdout w
  /\ calls (snd (op w)) =
     match TavilySearchResults config with
     | Return _ => (calls w ++ [Search config query])%list
     | Raise _ => calls w
     end.

(** The text of a field of a result item: a [str] as it is, a missing key as
    the empty string. *)
Definition field_text (key : string) (entries : list (string * pyval)) : string :=
  match assoc key entries with
  | Some (PStr s) => s
  | _ => EmptyString
  end.

(** An item whose ['content'] and ['url'] are strings where present. *)
Definition textual (entries : list (string * pyval)) : bool :=
  match assoc "content" entries with
  | Some (PStr _) | None => true
  | _ => false
  end
  &&
  match assoc "url" entries with
  | Some (PStr _) | None => true
  | _ => false
  end.

(** One item as the loop writes it, and the items one after the other,
    counted from [i] where they are numbered. *)
Definition item_text (numbered : bool) (i : nat) (entries : list (string * pyval))
    : string :=
  (if numbered then decimal i ++ ". " else EmptyString)
  ++ field_text "content" entries ++ nl
  ++ "Source: " ++ field_text "url" entries ++ nl ++ nl.

Fixpoint items_text (numbered : bool) (i : nat) (items : list (list (string * pyval)))
    : string :=
  match items with
  | [] => EmptyString
  | entries :: rest => item_text numbered i entries ++ items_text numbered (S i) rest
  end.

(** What a lookup makes of the two shapes the search tool answers with. *)
Definition renders {rt : Runtime} (op : M string) (config : tavily_config)
    (query : string) (numbered : bool) (header : string) (w : world) : Prop :=
  forall search,
    TavilySearchResults config = Return search ->
    (forall items,
        search query = Return (PList (map PDict items)) ->
        forallb textual items = true ->
        fst (op w) = Return (header ++ items_text numbered 1 items))
    /\ (forall text,
          search query = Return (PStr text) -> fst (op w) = Return text).

(** A state as [chat] and ['clear'] leave it: the history is a list, and a
    list of exchanges. *)
Definition sound (w : world) : Prop :=
  chat_history w <> None /\ alternates (history_of w) = true.

(** [m] started in a sound state does not raise, leaves a sound state and
    returns a value that satisfies [Q]. *)
Definition runs_safely {A} (m : M A) (Q : A -> Prop) : Prop :=
  forall w, sound w -> exists a w', m w = (Return a, w') /\ sound w' /\ Q a.

(** Whether it returns or raises, [m] only adds to the calls on record, and
    only calls that satisfy [ok]. *)
Definition calls_grow {A} (m : M A) (ok : call -> Prop) : Prop :=
  forall w, exists added,
    calls (snd (m w)) = (calls w ++ added)%list /\ Forall ok added.

(** How the loop of the script reads a line. *)
Definition blank {rt : Runtime} (line : string) : bool :=
  String.eqb (str_strip line) EmptyString.

Definition quits {rt : Runtime} (line : string) : bool :=
  negb (blank line)
  && existsb (String.eqb (str_lower (str_strip line))) ["quit"; "exit"; "q"].

Definition is_request {rt : Runtime} (line : string) : bool :=
  negb (blank line)
  && negb (existsb (String.eqb (str_lower (str_strip line)))
             ["quit"; "exit"; "q"; "history"; "clear"]).

(** A call the loop may make while it reads the lines [stdin]: a search, or
    an invocation whose input is one of the lines, stripped, that line being
    neither blank nor a command. *)
Definition from_request {rt : Runtime} (stdin : list string) (c : call) : Prop :=
  match c with
  | Search _ _ => True
  | Invoke request =>
      exists line, In line stdin /\ input request = str_strip line
                   /\ is_request line = true
  end.

Definition is_search (c : call) : Prop :=
  match c with
  | Search _ _ => True
  | Invoke _ => False
  end.

(** What the script prints between the check of the keys and the prompt,
    when the agent is built and when it is not. *)
Definition agent_started : list string :=
  [ glyph_check ++ " API keys loaded successfully!";
    nl ++ glyph_robot ++ " Initializing book recommendation agent...";
    glyph_check ++ " Agent ready!" ++ nl;
    glyph_open_book ++ " Book Recommendation Chat (type 'quit' to exit, 'history' to view, 'clear' to reset):" ++ nl;
    "Example: 'I love sci-fi. I recently read Dune and Project Hail Mary. Recommend something fast-paced.'" ++ nl ].

Definition agent_failed (e : exn) : list string :=
  [ glyph_check ++ " API keys loaded successfully!";
    nl ++ glyph_robot ++ " Initializing book recommendation agent...";
    nl ++ glyph_cross ++ " Failed to initialize agent: " ++ exn_message e ].

(** * The page (app.py) *)

Module Page.

(** What the page takes from its surroundings. *)
Class Streamlit := {
  (** what [from agent import create_agent, chat as agent_chat] raised, if
      it raised; [create_agent] and [agent_chat] are [None] then *)
  IMPORT_ERROR : option exn;
  (** the readings of [time.time()], in the order they are taken *)
  clock : nat -> pyval;
  (** [time.strftime("%H:%M", time.localtime(ts))] for a reading of the
      clock; the script stores no other time *)
  strftime_HM : pyval -> string;
  (** [traceback.format_exc()] in the handler of an exception *)
  format_exc : exn -> string
}.

(** [st.session_state] once the script has set the keys that are missing
    (the session id, which only the header shows, is left out).
    ['agent_executor'] is the one key the script may find absent. *)
Record session_state := {
  messages : list pyval;
  agent_ready : bool;
  agent_executor : option AgentExecutor;
  last_error : option string;
  show_quick_start : bool
}.

(** The state of a session before its first run. *)
Definition new_session : session_state :=
  {| messages := []; agent_ready := false; agent_executor := None;
     last_error := None; show_quick_start := true |}.

(** What a run puts on the page, as far as it depends on the state; the style
    sheet, the header, the form, the scroll script and the footer are the
    same in every run and are left out.  [Chatbox] is a call of
    [chatbox_placeholder.markdown], each of which replaces what the box
    showed before. *)
Inductive element : Type :=
| StatusBadge (ready : bool)
| QuickStart
| Chatbox (html : string)
| ErrorBox (text : string)
| ErrorDetails (code : string)
| ResponseTime (start stop : pyval).

(** The process that serves the page: the session, the imported module
    [agent] with its console, the number of clock readings taken, and the
    page of the current run. *)
Record app := {
  session : session_state;
  agent_module : world;
  ticks : nat;
  page : list element
}.

Definition App (A : Type) : Type := app -> result A * app.

Definition app_ret {A} (a : A) : App A := fun s => (Return a, s).

Definition app_raise {A} (e : exn) : App A := fun s => (Raise e, s).

Definition app_bind {A B} (m : App A) (k : A -> App B) : App B :=
  fun s => match m s with
           | (Return a, s') => k a s'
           | (Raise e, s') => (Raise e, s')
           end.

Definition app_lift {A} (r : result A) : App A := fun s => (r, s).

(** [try: body  except Exception as e: handler(e)] *)
Definition app_try {A} (body : App A) (handler : exn -> App A) : App A :=
  fun s => match body s with
           | (Return a, s') => (Return a, s')
           | (Raise e, s') => handler e s'
           end.

Notation "x <~ m ;; k" := (app_bind m (fun x => k))
  (at level 61, m at next level, right associativity).
Notation "m ~; k" := (app_bind m (fun _ => k))
  (at level 61, right associativity).

Definition get_session : App session_state := fun s => (Return (session s), s).

Definition update_session (f : session_state -> session_state) : App unit :=
  fun s => (Return tt, {| session := f (session s); agent_module := agent_module s;
                          ticks := ticks s; page := page s |}).

Definition with_messages (ms : list pyval) (ss : session_state) : session_state :=
  {| messages := ms; agent_ready := agent_ready ss;
     agent_executor := agent_executor ss; last_error := last_error ss;
     show_quick_start := show_quick_start ss |}.

Definition with_agent_ready (b : bool) (ss : session_state) : session_state :=
  {| messages := messages ss; agent_ready := b;
     agent_executor := agent_executor ss; last_error := last_error ss;
     show_quick_start := show_quick_start ss |}.

Definition with_agent_executor (a : option AgentExecutor) (ss : session_state)
    : session_state :=
  {| messages := messages ss; agent_ready := agent_ready ss;
     agent_executor := a; last_error := last_error ss;
     show_quick_start := show_quick_start ss |}.

Definition with_last_error (e : option string) (ss : session_state) : session_state :=
  {| messages := messages ss; agent_ready := agent_ready ss;
     agent_executor := agent_executor ss; last_error := e;
     show_quick_start := show_quick_start ss |}.

Definition with_show_quick_start (b : bool) (ss : session_state) : session_state :=
  {| messages := messages ss; agent_ready := agent_ready ss;
     agent_executor := agent_executor ss; last_error := last_error ss;
     show_quick_start := b |}.

(** A page element is added to the page of the run. *)
Definition show (e : element) : App unit :=
  fun s => (Return tt, {| session := session s; agent_module := agent_module s;
                          ticks := ticks s; page := (page s ++ [e])%list |}).

(** A run starts on an empty page. *)
Definition new_page : App unit :=
  fun s => (Return tt, {| session := session s; agent_module := agent_module s;
                          ticks := ticks s; page := [] |}).

(** A call into the module [agent]. *)
Definition in_agent {A} (m : M A) : App A :=
  fun s => (fst (m (agent_module s)),
            {| session := session s; agent_module := snd (m (agent_module s));
               ticks := ticks s; page := page s |}).

(** The glyphs of the page, which the source file holds in UTF-8. *)
Definition emoji_books : string := bytes [240; 159; 147; 154].
Definition emoji_magnifier : string := bytes [240; 159; 148; 141].
Definition emoji_warning : string := bytes [226; 154; 160; 239; 184; 143].
Definition emoji_cross : string := bytes [226; 157; 140].
Definition bullet : string := bytes [226; 128; 162].

(** Whether [old] stands at the head of [s]. *)
Fixpoint starts_with (old s : string) : bool :=
  match old, s with
  | EmptyString, _ => true
  | String a old', String b s' => Ascii.eqb a b && starts_with old' s'
  | String _ _, EmptyString => false
  end.

(** [s.replace(old, new)] for a non-empty [old], from the left and without
    overlap: [skip] counts the characters of an occurrence of [old] that are
    still to be dropped.  Texts are held in UTF-8, in which an ASCII [old]
    is found where Python finds it. *)
Fixpoint replace_from (old new : string) (skip : nat) (s : string) : string :=
  match s with
  | EmptyString => EmptyString
  | String c rest =>
      match skip with
      | S n => replace_from old new n rest
      | O =>
          if starts_with old s
          then new ++ replace_from old new (String.length old - 1) rest
          else String c (replace_from old new 0 rest)
      end
  end.

Definition str_replace (old new s : string) : string := replace_from old new 0 s.

(** [v.replace(old, new)]: of the values at hand only a [str] has the
    method. *)
Definition method_replace (v : pyval) (old new : string) : result string :=
  match v with
  | PStr s => Return (str_replace old new s)
  | _ => Raise (attribute_error v "replace")
  end.

(** [v[key]] for a string key.  The message of the [TypeError], which varies
    with the type of [v], is not told apart. *)
Definition subscript (v : pyval) (key : string) : result pyval :=
  match v with
  | PDict entries =>
      match assoc key entries with
      | Some x => Return x
      | None => Raise (Exception "KeyError" ("'" ++ key ++ "'"))
      end
  | _ => Raise (Exception "TypeError"
                  ("'" ++ type_name v ++ "' object is not subscriptable"))
  end.

(** [d[key] = x] on the entries of a dict: a key keeps its place. *)
Fixpoint dict_set (key : string) (x : pyval) (entries : list (string * pyval))
    : list (string * pyval) :=
  match entries with
  | [] => [(key, x)]
  | (k, v) :: rest =>
      if String.eqb key k then (k, x) :: rest else (k, v) :: dict_set key x rest
  end.

(** [v[key] = x] *)
Definition set_item (v : pyval) (key : string) (x : pyval) : result pyval :=
  match v with
  | PDict entries => Return (PDict (dict_set key x entries))
  | _ => Raise (Exception "TypeError"
                  ("'" ++ type_name v ++ "' object does not support item assignment"))
  end.

(** The dict literal of a message. *)
Definition message_dict (role : string) (content ts : pyval) : pyval :=
  PDict [("role", PStr role); ("content", content); ("ts", ts)].

Definition thinking : string :=
  emoji_magnifier ++ " Searching for perfect book recommendations...".

Definition no_recommendations : string :=
  "I couldn't generate recommendations. Please try rephrasing your preferences.".

Definition unexpected_format : string :=
  "I received an unexpected response format. Please try again.".

Definition failed_to_get : string :=
  emoji_warning ++ " Failed to get recommendations. Please check the error log below.".

Definition initialization_failed : string :=
  "<div id='chatbox'><div class='empty-state'><h2>" ++ emoji_warning
  ++ " Initialization Failed</h2><p>Please check your API keys and try refreshing the page.</p></div></div>".

Definition initialization_error : string :=
  emoji_cross ++ " Agent initialization failed. Please check your API keys in the .env file.".

(** What the chat box shows while there is no message. *)
Definition empty_state : string :=
  String.concat nl
    [ "<div id='chatbox'>";
      "<div class='empty-state'>";
      "<h2>" ++ emoji_books ++ " Ready to Discover Your Next Great Read?</h2>";
      "<p>Share your reading preferences below and I'll recommend 5 perfect books for you!</p>";
      "</div>";
      "</div>" ].

(** The two replacements of [**] that follow the one of the newlines. *)
Definition strong (s : string) : string :=
  str_replace "**" "</strong>" (str_replace "**" "<strong>" s).

(** The two kinds of bubble. *)
Definition user_bubble (safe_content ts_str : string) : string :=
  "<div style='display:flex; justify-content:flex-end;'>"
  ++ "<div class='msg-user'>" ++ safe_content
  ++ "<div class='meta'>You " ++ bullet ++ " " ++ ts_str ++ "</div>"
  ++ "</div></div>".

Definition assistant_bubble (safe_content ts_str : string) : string :=
  "<div style='display:flex; justify-content:flex-start;'>"
  ++ "<div class='msg-assistant'>" ++ safe_content
  ++ "<div class='meta'>Book Agent " ++ bullet ++ " " ++ ts_str ++ "</div>"
  ++ "</div></div>".

(** The steps of a run that the page stops at, or runs through. *)
Inductive ending : Type :=
| Completed
| Stopped.

(** What the widgets return in a run. *)
Record widgets := {
  clear_chat : bool;
  toggle_guide : bool;
  submit : bool;
  user_input : string
}.

Section App.

Context {rt : Runtime} {sl : Streamlit}.

(** [time.time()] *)
Definition time_time : App pyval :=
  fun s => (Return (clock (ticks s)),
            {| session := session s; agent_module := agent_module s;
               ticks := S (ticks s); page := page s |}).

(** Initialize and cache the agent executor.  [st.cache_resource] keeps what
    the function returned for the calls to come; [create_agent] being a
    function of the run-time here, a kept executor and a new one are the
    same. *)
Definition get_agent_executor_cached : App AgentExecutor :=
  match IMPORT_ERROR with
  | Some e =>
      app_raise (Exception "RuntimeError"
                   ("agent.create_agent import failed: " ++ exn_message e))
  | None => app_lift create_agent
  end.

(** Ensure agent is initialized and ready.  An executor object is true. *)
Definition ensure_agent_ready : App AgentExecutor :=
  ss <~ get_session ;;
  match agent_ready ss, agent_executor ss with
  | true, Some a => app_ret a
  | _, _ =>
      agent_exec <~ get_agent_executor_cached ;;
      update_session (with_agent_executor (Some agent_exec)) ~;
      update_session (with_agent_ready true) ~;
      app_ret agent_exec
  end.

(** The body of the loop of [render_chat_html]. *)
Definition bubble (msg : pyval) : App string :=
  role <~ app_lift (method_get msg "role" (PStr "user")) ;;
  content <~ app_lift (method_get msg "content" (PStr EmptyString)) ;;
  now <~ time_time ;;
  ts <~ app_lift (method_get msg "ts" now) ;;
  let ts_str := strftime_HM ts in
  safe_content <~ app_lift (method_replace content nl "<br>") ;;
  let safe_content := strong safe_content in
  if eq_str role "user" then app_ret (user_bubble safe_content ts_str)
  else app_ret (assistant_bubble safe_content ts_str).

Fixpoint bubbles (messages : list pyval) : App (list string) :=
  match messages with
  | [] => app_ret []
  | msg :: rest =>
      part <~ bubble msg ;;
      parts <~ bubbles rest ;;
      app_ret (part :: parts)
  end.

(** Render chat messages as HTML. *)
Definition render_chat_html (messages : list pyval) : App string :=
  match messages with
  | [] => app_ret empty_state
  | _ :: _ =>
      parts <~ bubbles messages ;;
      app_ret (String.concat nl (("<div id='chatbox'>" :: parts) ++ ["</div>"])%list)
  end.

(** [chatbox_placeholder.markdown(render_chat_html(st.session_state.messages))] *)
Definition show_chat : App unit :=
  ss <~ get_session ;;
  html <~ render_chat_html (messages ss) ;;
  show (Chatbox html).

(** [st.session_state.messages.append(...)] *)
Definition append_message (msg : pyval) : App unit :=
  update_session (fun ss => with_messages (messages ss ++ [msg])%list ss).

(** The loop that looks, from the last message down, for one of the
    assistant and gives it the content and a new time; [None] when there is
    none. *)
Fixpoint update_from_last (content : pyval) (messages : list pyval)
    : App (option (list pyval)) :=
  match messages with
  | [] => app_ret None
  | msg :: rest =>
      found <~ update_from_last content rest ;;
      match found with
      | Some rest' => app_ret (Some (msg :: rest'))
      | None =>
          role <~ app_lift (subscript msg "role") ;;
          if eq_str role "assistant" then
            msg <~ app_lift (set_item msg "content" content) ;;
            now <~ time_time ;;
            msg <~ app_lift (set_item msg "ts" now) ;;
            app_ret (Some (msg :: rest))
          else app_ret None
      end
  end.

Definition update_last_assistant (content : pyval) : App unit :=
  ss <~ get_session ;;
  found <~ update_from_last content (messages ss) ;;
  match found with
  | Some messages' => update_session (with_messages messages')
  | None => app_ret tt
  end.

(** [agent_chat(text, agent_exec)] *)
Definition agent_chat (text : string) (agent_exec : AgentExecutor) : App pyval :=
  match IMPORT_ERROR with
  | Some _ => app_raise (Exception "TypeError" "'NoneType' object is not callable")
  | None => in_agent (chat text (Some (invoke agent_exec)))
  end.

(** The inner [try] of the block below: the call of the agent and what is
    made of a response that is no string. *)
Definition agent_response (text : string) (agent_exec : AgentExecutor) : App pyval :=
  app_try
    (response <~ agent_chat text agent_exec ;;
     match response with
     | PNone => app_ret (PStr no_recommendations)
     | PStr _ => app_ret response
     | _ =>
         app_try (s <~ app_lift (py_str response) ;; app_ret (PStr s))
                 (fun _ => app_ret (PStr unexpected_format))
     end)
    (fun e =>
       app_ret (PStr ("I encountered an error: " ++ exn_message e
                      ++ ". Please try again with different preferences."))).

(** The block that processes a submitted text. *)
Definition process_user_input (text : string) : App unit :=
  now <~ time_time ;;
  append_message (message_dict "user" (PStr text) now) ~;
  show_chat ~;
  now <~ time_time ;;
  append_message (message_dict "assistant" (PStr thinking) now) ~;
  show_chat ~;
  app_try
    (ss <~ get_session ;;
     agent_exec <~
       (match agent_executor ss with
        | Some a => app_ret a
        | None => ensure_agent_ready
        end) ;;
     start <~ time_time ;;
     response <~ agent_response text agent_exec ;;
     update_last_assistant response ~;
     show_chat ~;
     stop <~ time_time ;;
     show (ResponseTime start stop))
    (fun e =>
       let tb := format_exc e in
       update_session (with_last_error (Some tb)) ~;
       update_last_assistant (PStr failed_to_get) ~;
       show_chat ~;
       show (ErrorDetails tb)).

(** The block that initializes the agent; [false] when it ends in
    [st.stop()]. *)
Definition agent_initialization : App bool :=
  ss <~ get_session ;;
  if negb (agent_ready ss) then
    app_try
      (ensure_agent_ready ~;
       update_session (with_agent_ready true) ~;
       app_ret true)
      (fun e =>
         let tb := format_exc e in
         update_session (with_last_error (Some tb)) ~;
         show (ErrorBox initialization_error) ~;
         show (ErrorDetails tb) ~;
         show (Chatbox initialization_failed) ~;
         app_ret false)
  else app_ret true.

(** The script from the quick start guide on, in a run in which no button is
    pressed. *)
Definition page_body (submit : bool) (user_input : string) : App ending :=
  ss <~ get_session ;;
  (if show_quick_start ss && Nat.eqb (length (messages ss)) 0 then show QuickStart
   else app_ret tt) ~;
  ready <~ agent_initialization ;;
  if ready then
    show_chat ~;
    (if submit && negb (String.eqb user_input EmptyString)
        && negb (String.eqb (str_strip user_input) EmptyString)
     then process_user_input (str_strip user_input)
     else app_ret tt) ~;
    app_ret Completed
  else app_ret Stopped.

(** The script down to the status badge. *)
Definition page_head : App unit :=
  new_page ~;
  ss <~ get_session ;;
  show (StatusBadge (agent_ready ss)).

(** One run of the script.  [st.rerun()] ends the run and starts one in
    which no widget is triggered. *)
Definition script (w : widgets) : App ending :=
  page_head ~;
  if clear_chat w then
    update_session (with_messages []) ~;
    page_head ~;
    page_body false EmptyString
  else if toggle_guide w then
    update_session (fun ss => with_show_quick_start (negb (show_quick_start ss)) ss) ~;
    page_head ~;
    page_body false EmptyString
  else page_body (submit w) (user_input w).

End App.

(** The process as it starts, and a session as it starts in a process whose
    module [agent] is in state [w]. *)
Definition new_app : app :=
  {| session := new_session; agent_module := initial_world; ticks := 0; page := [] |}.

(** A message as the page stores it: a dict with a role, a text and a time. *)
Definition stored_message (msg : pyval) : bool :=
  match msg with
  | PDict entries =>
      match assoc "role" entries, assoc "content" entries, assoc "ts" entries with
      | Some (PStr _), Some (PStr _), Some _ => true
      | _, _, _ => false
      end
  | _ => false
  end.

(** A session as the script leaves it: stored messages only, and an agent
    that is ready is at hand. *)
Definition tidy (s : app) : Prop :=
  forallb stored_message (messages (session s)) = true
  /\ (agent_ready (session s) = true -> agent_executor (session s) <> None).

(** Whether [old] occurs in [s]. *)
Fixpoint occurs (old s : string) : bool :=
  starts_with old s
  || match s with
     | EmptyString => false
     | String _ rest => occurs old rest
     end.

(** What [render_chat_html] makes of a message's text. *)
Definition safe_content_of (content : string) : string :=
  strong (str_replace nl "<br>" content).

(** The bubble of a stored message, and the chat box for stored messages. *)
Definition bubble_of {sl : Streamlit} (msg : pyval) : string :=
  match msg with
  | PDict entries =>
      match assoc "role" entries, assoc "content" entries, assoc "ts" entries with
      | Some role, Some (PStr content), Some ts =>
          (if eq_str role "user" then user_bubble else assistant_bubble)
            (safe_content_of content) (strftime_HM ts)
      | _, _, _ => EmptyString
      end
  | _ => EmptyString
  end.

Definition chat_html {sl : Streamlit} (messages : list pyval) : string :=
  match messages with
  | [] => empty_state
  | _ :: _ =>
      String.concat nl (("<div id='chatbox'>" :: map bubble_of messages) ++ ["</div>"])%list
  end.

(** Whether a run with these widgets hands a text to the agent. *)
Definition requests {rt : Runtime} (w : widgets) : bool :=
  negb (clear_chat w) && negb (toggle_guide w) && submit w
  && negb (String.eqb (user_input w) EmptyString)
  && negb (String.eqb (str_strip (user_input w)) EmptyString).

(** What [get_agent_executor_cached] returns or raises. *)
Definition built_agent {rt : Runtime} {sl : Streamlit} : result AgentExecutor :=
  match IMPORT_ERROR with
  | Some e =>
      Raise (Exception "RuntimeError"
               ("agent.create_agent import failed: " ++ exn_message e))
  | None => create_agent
  end.

(** The session once a pressed button has had its effect. *)
Definition after_buttons (w : widgets) (ss : session_state) : session_state :=
  if clear_chat w then with_messages [] ss
  else if toggle_guide w then with_show_quick_start (negb (show_quick_start ss)) ss
  else ss.

(** The session once the agent is at hand. *)
Definition with_agent (a : AgentExecutor) (ss : session_state) : session_state :=
  if agent_ready ss then ss
  else with_agent_ready true (with_agent_ready true (with_agent_executor (Some a) ss)).

(** The guide, where the run shows it. *)
Definition guide (ss : session_state) : list element :=
  if show_quick_start ss && Nat.eqb (length (messages ss)) 0 then [QuickStart] else [].

(** An executor is at hand for the session: from an earlier run, or built
    in this one. *)
Definition at_hand {rt : Runtime} {sl : Streamlit} (ss : session_state)
    (a : AgentExecutor) : Prop :=
  (agent_ready ss = true /\ agent_executor ss = Some a)
  \/ (agent_ready ss = false /\ built_agent = Return a).

(** Whether one of the two buttons is pressed. *)
Definition pressed (w : widgets) : bool := clear_chat w || toggle_guide w.

(** The widgets of a run in which nothing is triggered. *)
Definition idle : widgets :=
  {| clear_chat := false; toggle_guide := false; submit := false;
     user_input := EmptyString |}.

(** What a run shows when the agent cannot be initialized. *)
Definition failure_notice {sl : Streamlit} (e : exn) : list element :=
  [ ErrorBox initialization_error; ErrorDetails (format_exc e);
    Chatbox initialization_failed ].

(** A clock that counts, shown as one fixed time, in a process that could
    import the module. *)
Definition counting : Streamlit :=
  {| IMPORT_ERROR := None;
     clock := fun n => PInt (Z.of_nat n);
     strftime_HM := fun _ => "12:00";
     format_exc := fun e => "Traceback (most recent call last): " ++ exn_message e |}.

(** An agent whose model gives [text] as its final answer at once, and a
    process whose session has such an agent ready while its module [agent]
    is in state [w]. *)
Definition telling (text : string) : AgentExecutor :=
  {| agent := fun _ _ => Return (Final text);
     tools := [];
     verbose := true;
     handle_parsing_errors := true;
     max_iterations := 10;
     max_execution_time := 120 |}.

Definition ready_app (a : AgentExecutor) (w : world) : app :=
  {| session := with_agent_ready true (with_agent_executor (Some a) new_session);
     agent_module := w; ticks := 0; page := [] |}.

(** Another session opens in the process that serves [s]: its session state
    is new, its page is yet to be drawn, and the module [agent], which the
    process imports once, is as the sessions before left it. *)
Definition new_visitor (s : app) : app :=
  {| session := new_session; agent_module := agent_module s; ticks := ticks s;
     page := [] |}.

(** The widgets of a run in which [text] is submitted. *)
Definition submitting (text : string) : widgets :=
  {| clear_chat := false; toggle_guide := false; submit := true; user_input := text |}.

(** The widgets of a run in which 'Clear Chat' is pressed. *)
Definition clearing : widgets :=
  {| clear_chat := true; toggle_guide := false; submit := false;
     user_input := EmptyString |}.

End Page.

(** ** Facts about the monad *)

Lemma append_assoc (a b c : string) : (a ++ b) ++ c = a ++ b ++ c.
Proof. induction a as [| ch a IH]; simpl; [reflexivity | now rewrite IH]. Qed.

Lemma lift_runs {A} (r : result A) w : lift r w = (r, w).
Proof. reflexivity. Qed.

(** ** The lookup tools *)

Section Lookups.

Context {rt : Runtime}.

Lemma genre_is_lookup genre :
  search_books_by_genre genre =
  lookup (tavily 5) ("best " ++ genre ++ " books 2024 2023 highly rated recommendations")
    true ("Top books in " ++ genre ++ ":" ++ nl ++ nl) "searching books by genre".
Proof. reflexivity. Qed.

Lemma similar_is_lookup book_title :
  search_similar_books book_title =
  lookup (tavily 5) ("books similar to " ++ book_title ++ " recommendations if you liked")
    true ("Books similar to '" ++ book_title ++ "':" ++ nl ++ nl) "searching similar books".
Proof. reflexivity. Qed.

Lemma mood_is_lookup mood :
  search_books_by_mood mood =
  lookup (tavily 5) (mood ++ " books recommendations best rated")
    true ("Books for " ++ mood ++ " mood:" ++ nl ++ nl) "searching books by mood".
Proof. reflexivity. Qed.

Lemma details_is_lookup book_title author :
  get_book_details book_title author =
  lookup (tavily 3)
    ((if negb (String.eqb author EmptyString) then book_title ++ " by " ++ author
      else book_title) ++ " book synopsis author information reading time pages")
    false ("Details for '" ++ book_title ++ "':" ++ nl ++ nl) "getting book details".
Proof. reflexivity. Qed.

Lemma buy_is_lookup book_title :
  search_where_to_buy book_title =
  lookup (tavily 4) ("where to buy " ++ book_title ++ " book Amazon Goodreads library online")
    true ("Where to get '" ++ book_title ++ "':" ++ nl ++ nl) "searching purchase options".
Proof. reflexivity. Qed.

Lemma lookup_runs config query numbered header context w :
  lookup config query numbered header context w =
  match TavilySearchResults config with
  | Raise e => (Return ("Error " ++ context ++ ": " ++ exn_message e), w)
  | Return search =>
      match bind_result (search query) (render_results numbered header) with
      | Return text => (Return text, searched config query w)
      | Raise e =>
          (Return ("Error " ++ context ++ ": " ++ exn_message e),
           searched config query w)
      end
  end.
Proof.
  unfold lookup, try_except, tavily_search, bind, lift, record_call, record_calls.
  destruct (TavilySearchResults config) as [search | e]; [| reflexivity].
  unfold searched. destruct (search query) as [results | e]; [| reflexivity].
  simpl. destruct (render_results numbered header results); reflexivity.
Qed.

Lemma lookup_returns config query numbered header context w :
  exists text w', lookup config query numbered header context w = (Return text, w').
Proof.
  rewrite lookup_runs.
  destruct (TavilySearchResults config) as [search | e]; [| eauto].
  destruct (bind_result _ _); eauto.
Qed.

(** One item that is not a dict makes the formatting loop raise, at that
    item or at an earlier one. *)
Lemma format_results_item_without_get numbered items :
  (exists item, In item items /\ isinstance_dict item = false) ->
  forall i formatted, exists e, format_results numbered i items formatted = Raise e.
Proof.
  induction items as [| result rest IH]; intros [item [Hin Hnot]] i formatted.
  - destruct Hin.
  - simpl.
    destruct (method_get result "content" (PStr EmptyString)) as [content | e] eqn:Hc;
      simpl; [| eauto].
    destruct (method_get result "url" (PStr EmptyString)) as [url | e]; simpl; [| eauto].
    destruct (py_str content) as [c | e]; simpl; [| eauto].
    destruct (py_str url) as [u | e]; simpl; [| eauto].
    apply IH. destruct Hin as [-> | Hin]; [| eauto].
    destruct item; simpl in Hc, Hnot; discriminate.
Qed.

(** What a lookup answers in each of the ways its body can raise. *)
Lemma lookup_failures config query numbered header context w :
  (forall e, TavilySearchResults config = Raise e ->
     lookup config query numbered header context w =
     (Return ("Error " ++ context ++ ": " ++ exn_message e), w))
  /\ (forall search e, TavilySearchResults config = Return search ->
        search query = Raise e ->
        lookup config query numbered header context w =
        (Return ("Error " ++ context ++ ": " ++ exn_message e),
         searched config query w))
  /\ (forall search items, TavilySearchResults config = Return search ->
        search query = Return (PList items) ->
        (exists item, In item items /\ isinstance_dict item = false) ->
        exists e,
          lookup config query numbered header context w =
          (Return ("Error " ++ context ++ ": " ++ exn_message e),
           searched config query w)).
Proof.
  repeat split.
  - intros e H. rewrite lookup_runs, H. reflexivity.
  - intros search e H Hq. rewrite lookup_runs, H, Hq. reflexivity.
  - intros search items H Hq Hitem. rewrite lookup_runs, H, Hq. simpl.
    destruct (format_results_item_without_get numbered items Hitem 1 header) as [e He].
    rewrite He. eauto.
Qed.

(** C7: once its search tool is constructed, each lookup sends exactly one
    request, with the result cap of its constructor call and the query of the
    table: ["best {genre} books 2024 2023 highly rated recommendations"] for
    a genre, ["{book_title} by {author} book synopsis author information
    reading time pages"] for the details of a book whose author is given and
    the same without [" by {author}"] when the author is empty, and the
    fixed templates of the other three. *)
Theorem lookup_queries_as_tabled (x author : string) (w : world)
    (search3 search4 search5 : search_tool) :
  TavilySearchResults (tavily 3) = Return search3 ->
  TavilySearchResults (tavily 4) = Return search4 ->
  TavilySearchResults (tavily 5) = Return search5 ->
  calls (snd (search_books_by_genre x w)) =
    (calls w ++ [Search (tavily 5)
                   ("best " ++ x ++ " books 2024 2023 highly rated recommendations")])%list
  /\ calls (snd (search_similar_books x w)) =
    (calls w ++ [Search (tavily 5)
                   ("books similar to " ++ x ++ " recommendations if you liked")])%list
  /\ calls (snd (search_books_by_mood x w)) =
    (calls w ++ [Search (tavily 5) (x ++ " books recommendations best rated")])%list
  /\ (author <> EmptyString ->
      calls (snd (get_book_details x author w)) =
        (calls w ++ [Search (tavily 3)
                       (x ++ " by " ++ author ++
                        " book synopsis author information reading time pages")])%list)
  /\ calls (snd (get_book_details x EmptyString w)) =
    (calls w ++ [Search (tavily 3)
                   (x ++ " book synopsis author information reading time pages")])%list
  /\ calls (snd (search_where_to_buy x w)) =
    (calls w ++ [Search (tavily 4)
                   ("where to buy " ++ x ++ " book Amazon Goodreads library online")])%list.
Proof.
  intros H3 H4 H5.
  assert (sent : forall config search query numbered header context,
            TavilySearchResults config = Return search ->
            calls (snd (lookup config query numbered header context w)) =
            (calls w ++ [Search config query])%list).
  { intros config search query numbered header context H.
    rewrite lookup_runs, H. destruct (bind_result _ _); reflexivity. }
  repeat split.
  - rewrite genre_is_lookup. eapply sent, H5.
  - rewrite similar_is_lookup. eapply sent, H5.
  - rewrite mood_is_lookup. eapply sent, H5.
  - intros Hauthor. rewrite details_is_lookup.
    destruct (String.eqb_spec author EmptyString) as [-> | _]; [contradiction |].
    simpl negb. cbv iota. erewrite sent by exact H3.
    rewrite !append_assoc. reflexivity.
  - rewrite details_is_lookup. simpl. eapply sent, H3.
  - rewrite buy_is_lookup. eapply sent, H4.
Qed.


Lemma lookup_fails_softly config query numbered header context w :
  fails_softly (lookup config query numbered header context)
    config query numbered header context w.
Proof.
  destruct (lookup_failures config query numbered header context w) as (H1 & H2 & H3).
  unfold fails_softly. split; [| split; [| split; [| split]]].
  - rewrite lookup_runs.
    destruct (TavilySearchResults config) as [search | e]; [| right; now exists e].
    destruct (search query) as [results | e] eqn:Hq; [| right; now exists e].
    simpl. destruct (render_results numbered header results) as [text | e] eqn:Hr;
      [| right; now exists e].
    left. exists search, results, text. auto.
  - intros e H. now rewrite (H1 e H).
  - intros search e H Hq. now rewrite (H2 search e H Hq).
  - intros search items H Hq Hitem.
    destruct (H3 search items H Hq Hitem) as [e He]. exists e. now rewrite He.
  - intros search H Hq. rewrite lookup_runs, H, Hq. reflexivity.
Qed.

(** C2, as amended: each of the five lookup operations returns a text and
    never raises; an exception raised while it runs (the search tool cannot
    be built, the request fails, a result item has no [get], a value cannot
    be turned into text) is caught and comes back as
    ["Error <doing X>: <cause>"]; an empty result list is not a failure and
    comes back as the operation's header alone. *)
Theorem lookups_fail_softly (x author : string) (w : world) :
  fails_softly (search_books_by_genre x) (tavily 5)
    ("best " ++ x ++ " books 2024 2023 highly rated recommendations") true
    ("Top books in " ++ x ++ ":" ++ nl ++ nl) "searching books by genre" w
  /\ fails_softly (search_similar_books x) (tavily 5)
    ("books similar to " ++ x ++ " recommendations if you liked") true
    ("Books similar to '" ++ x ++ "':" ++ nl ++ nl) "searching similar books" w
  /\ fails_softly (search_books_by_mood x) (tavily 5)
    (x ++ " books recommendations best rated") true
    ("Books for " ++ x ++ " mood:" ++ nl ++ nl) "searching books by mood" w
  /\ fails_softly (get_book_details x author) (tavily 3)
    ((if negb (String.eqb author EmptyString) then x ++ " by " ++ author else x)
       ++ " book synopsis author information reading time pages") false
    ("Details for '" ++ x ++ "':" ++ nl ++ nl) "getting book details" w
  /\ fails_softly (search_where_to_buy x) (tavily 4)
    ("where to buy " ++ x ++ " book Amazon Goodreads library online") true
    ("Where to get '" ++ x ++ "':" ++ nl ++ nl) "searching purchase options" w.
Proof.
  rewrite genre_is_lookup, similar_is_lookup, mood_is_lookup, details_is_lookup,
    buy_is_lookup.
  split; [| split; [| split; [| split]]]; apply lookup_fails_softly.
Qed.

End Lookups.

(** The lookups asked about "Dune" by "Frank Herbert" on a machine whose
    search answers an empty list. *)
Lemma lookup_queries_as_tabled_witness :
  calls (snd (get_book_details (rt := canned (Return (PList [])))
                "Dune" "Frank Herbert" initial_world)) =
  [Search (tavily 3)
     "Dune by Frank Herbert book synopsis author information reading time pages"].
Proof.
  destruct (lookup_queries_as_tabled (rt := canned (Return (PList [])))
              "Dune" "Frank Herbert" initial_world
              (fun _ => Return (PList [])) (fun _ => Return (PList []))
              (fun _ => Return (PList [])) eq_refl eq_refl eq_refl)
    as (_ & _ & _ & H & _).
  apply H. discriminate.
Defined.

(** Without credentials the search tool cannot be built: the lookup answers
    with the error text. *)
Lemma lookups_fail_softly_witness :
  fst (get_book_details (rt := offline) "Dune" "Frank Herbert" initial_world) =
  Return "Error getting book details: Did not find tavily_api_key".
Proof.
  destruct (lookups_fail_softly (rt := offline) "Dune" "Frank Herbert" initial_world)
    as (_ & _ & _ & (_ & H & _) & _).
  apply (H (Exception "ValueError" "Did not find tavily_api_key")). reflexivity.
Defined.

(** C2 as stated fails on an empty result set: the genre search then returns
    its header, which is no error text. *)
Lemma empty_result_is_no_error :
  fst (search_books_by_genre (rt := canned (Return (PList []))) "mystery" initial_world) =
  Return ("Top books in mystery:" ++ nl ++ nl)
  /\ String.prefix "Error" ("Top books in mystery:" ++ nl ++ nl) = false.
Proof. split; reflexivity. Qed.

(** ** Chat *)

Section Chat.

Context {rt : Runtime}.

Lemma bind_run {A B} (m : M A) (k : A -> M B) w :
  bind m k w =
  match m w with
  | (Return a, w1) => k a w1
  | (Raise e, w1) => (Raise e, w1)
  end.
Proof. reflexivity. Qed.

Lemma text_not_empty (s : string) :
  negb (String.eqb s EmptyString) = true -> s <> EmptyString.
Proof. destruct s; [discriminate | intros _; discriminate]. Qed.

(** Whatever the response, the ladder leaves a non-empty text in [output],
    if it does not raise. *)
Lemma response_output_text response output :
  response_output response = Return output ->
  exists s, output = PStr s /\ s <> EmptyString.
Proof.
  unfold response_output. intros H.
  match type of H with bind_result ?r _ = _ => destruct r as [o | e] end;
    simpl in H; [| discriminate].
  unfold py_not in H. destruct (truthy o) as [b | e] eqn:T; simpl in H; [| discriminate].
  injection H as <-. destruct b; simpl.
  - destruct o; simpl; try (exists trouble; split; [reflexivity | discriminate]).
    exists s. split; [reflexivity |]. simpl in T. injection T as T.
    now apply text_not_empty.
  - exists trouble. split; [reflexivity | discriminate].
Qed.

Lemma engine_output_text ex request :
  exists s, engine_output ex request = PStr s /\ s <> EmptyString.
Proof.
  unfold engine_output.
  destruct (snd (ex request)) as [response | e].
  - destruct (response_output response) as [output | e] eqn:H.
    + eapply response_output_text, H.
    + exists fallback_answer. split; [reflexivity | discriminate].
  - exists fallback_answer. split; [reflexivity | discriminate].
Qed.

(** The inner [try] statement never raises. *)
Lemma inner_try_runs ex request w :
  try_except
    (response <- call_executor ex request ;; lift (response_output response))
    (fun e => ret (PStr fallback_answer)) w =
  (Return (engine_output ex request),
   {| chat_history := chat_history w; stdout := stdout w;
      calls := invoked ex request (calls w) |}).
Proof.
  unfold try_except, call_executor, bind, record_call, record_calls, lift, ret,
    engine_output, invoked.
  simpl. destruct (snd (ex request)) as [response | e]; [| reflexivity].
  destruct (response_output response); reflexivity.
Qed.

Lemma ret_runs {A} (a : A) w : ret a w = (Return a, w).
Proof. reflexivity. Qed.

Lemma get_chat_history_runs w : get_chat_history w = (Return (chat_history w), w).
Proof. reflexivity. Qed.

Lemma set_chat_history_runs h w :
  set_chat_history h w =
  (Return tt, {| chat_history := h; stdout := stdout w; calls := calls w |}).
Proof. reflexivity. Qed.

Lemma chat_history_list_runs h out cs :
  chat_history_list {| chat_history := Some h; stdout := out; calls := cs |} =
  (Return h, {| chat_history := Some h; stdout := out; calls := cs |}).
Proof. reflexivity. Qed.

Lemma chat_history_append_runs x h out cs :
  chat_history_append x {| chat_history := Some h; stdout := out; calls := cs |} =
  (Return tt, {| chat_history := Some (h ++ [x])%list; stdout := out; calls := cs |}).
Proof. reflexivity. Qed.

Create Rewrite HintDb run.
#[local] Hint Rewrite @ret_runs @lift_runs get_chat_history_runs set_chat_history_runs
  chat_history_list_runs chat_history_append_runs : run.

(** Run the statements of a block up to the next one that branches. *)
Ltac run :=
  repeat (rewrite bind_run; autorewrite with run; cbn [chat_history stdout calls]).

Lemma executor_resolved agent_executor w :
  match agent_executor with
  | Some ex => ret ex
  | None => a <- lift create_agent ;; ret (invoke a)
  end w = (executor_for agent_executor, w).
Proof.
  destruct agent_executor as [ex |]; [reflexivity |].
  unfold executor_for, bind, lift, ret. simpl.
  destruct create_agent; reflexivity.
Qed.

Lemma text_truthy (s : string) : s <> EmptyString -> truthy (PStr s) = Return true.
Proof. destruct s; [contradiction | reflexivity]. Qed.

(** [chat_body] in one piece: it raises only while the history is formatted
    or the executor is created, before anything is appended; otherwise it
    returns the output of the inner [try] and stores the exchange. *)
Lemma chat_body_runs user_input agent_executor w :
  chat_body user_input agent_executor w =
  match format_history (history_of w) [] with
  | Raise e => (Raise e, opened w)
  | Return formatted_history =>
      match executor_for agent_executor with
      | Raise e => (Raise e, opened w)
      | Return ex =>
          let request := {| input := user_input;
                            input_chat_history := formatted_history |} in
          let output := engine_output ex request in
          (Return output,
           {| chat_history := Some (trim (recorded user_input output (history_of w)));
              stdout := stdout w;
              calls := invoked ex request (calls w) |})
      end
  end.
Proof.
  assert (start : forall h out cs,
    chat_body user_input agent_executor
      {| chat_history := Some h; stdout := out; calls := cs |} =
    match format_history h [] with
    | Raise e => (Raise e, {| chat_history := Some h; stdout := out; calls := cs |})
    | Return formatted_history =>
      match executor_for agent_executor with
      | Raise e => (Raise e, {| chat_history := Some h; stdout := out; calls := cs |})
      | Return ex =>
          let request := {| input := user_input;
                            input_chat_history := formatted_history |} in
          let output := engine_output ex request in
          (Return output,
           {| chat_history := Some (trim (recorded user_input output h));
              stdout := out;
              calls := invoked ex request cs |})
      end
  end).
  { intros h out cs. unfold chat_body.
    run. destruct (format_history h []) as [fh | e]; [| reflexivity].
    run. rewrite executor_resolved.
    destruct (executor_for agent_executor) as [ex | e]; [| reflexivity].
    run. rewrite inner_try_runs.
    destruct (engine_output_text ex {| input := user_input; input_chat_history := fh |})
      as [s [-> Hs]].
    run. rewrite (text_truthy s Hs). unfold recorded, trim. cbn [eq_str andb].
    destruct (String.eqb s no_response); cbn [negb]; run;
      match goal with |- context [Nat.ltb 20 ?n] => destruct (Nat.ltb 20 n) end;
      run; reflexivity. }
  destruct w as [[h |] out cs]; unfold history_of, opened; cbn [chat_history stdout calls].
  - apply start.
  - transitivity (chat_body user_input agent_executor
                    {| chat_history := Some []; stdout := out; calls := cs |});
      [reflexivity | exact (start [] out cs)].
Qed.

(** C1: whatever the user input, the executor passed in (or none) and the
    state, and whatever the executor does when invoked (raise, return [None],
    a dict without ['output'], something that is no string), [chat] returns a
    non-empty string; no exception leaves it. *)
Theorem chat_always_answers (user_input : string) (agent_executor : option executor)
    (w : world) :
  exists s w', chat user_input agent_executor w = (Return (PStr s), w')
               /\ s <> EmptyString.
Proof.
  unfold chat, try_except. rewrite chat_body_runs.
  assert (handled : forall e w0, exists s w',
            (print ("Error in chat function: " ++ exn_message e) ;;; ret (PStr sorry)) w0
            = (Return (PStr s), w') /\ s <> EmptyString).
  { intros e w0. exists sorry. eexists. split; [reflexivity | discriminate]. }
  destruct (format_history (history_of w) []) as [fh | e]; [| apply handled].
  destruct (executor_for agent_executor) as [ex | e]; [| apply handled].
  cbv zeta.
  destruct (engine_output_text ex {| input := user_input; input_chat_history := fh |})
    as [s [-> Hs]].
  eauto.
Qed.

(** C4: when the history has been formatted and the executor is at hand, an
    invocation that raises, whatever the exception and the user input, makes
    [chat] return the one fixed fallback text, which is not empty. *)
Theorem engine_failure_gives_fallback (user_input : string)
    (agent_executor : option executor) (w : world)
    (formatted_history : list message) (ex : executor) (e : exn) :
  format_history (history_of w) [] = Return formatted_history ->
  executor_for agent_executor = Return ex ->
  snd (ex {| input := user_input; input_chat_history := formatted_history |}) = Raise e ->
  fst (chat user_input agent_executor w) = Return (PStr fallback_answer)
  /\ fallback_answer <> EmptyString.
Proof.
  intros Hf Hex Hraise. split; [| discriminate].
  unfold chat, try_except. rewrite chat_body_runs, Hf, Hex. cbv zeta.
  unfold engine_output. rewrite Hraise. reflexivity.
Qed.

End Chat.

(** An executor whose invocation runs out of quota. *)
Lemma engine_failure_gives_fallback_witness :
  fst (chat (rt := offline) "something fast-paced"
         (Some (fun _ => ([], Raise (Exception "RateLimitError" "quota exceeded"))))
         initial_world) = Return (PStr fallback_answer)
  /\ fallback_answer <> EmptyString.
Proof.
  apply (engine_failure_gives_fallback (rt := offline) "something fast-paced"
           (Some (fun _ => ([], Raise (Exception "RateLimitError" "quota exceeded"))))
           initial_world []
           (fun _ => ([], Raise (Exception "RateLimitError" "quota exceeded")))
           (Exception "RateLimitError" "quota exceeded"));
    reflexivity.
Defined.

(** ** The rolling history *)

Section History.

Context {rt : Runtime}.

Lemma list_pair_ind {A} (P : list A -> Prop) :
  P [] -> (forall x, P [x]) -> (forall x y l, P l -> P (x :: y :: l)) ->
  forall l, P l.
Proof.
  intros Hnil Hone Hstep l.
  assert (both : P l /\ forall x, P (x :: l)).
  { induction l as [| y l [IH1 IH2]]; split; auto. }
  apply both.
Qed.

Lemma last_20_is_trim h : last_20 h = trim h.
Proof.
  unfold trim, last_20. destruct (Nat.ltb_spec 20 (length h)) as [H | H]; [reflexivity |].
  replace (length h - 20) with 0 by lia. reflexivity.
Qed.

(** The cut keeps a suffix: the entries that go are the oldest. *)
Lemma trim_suffix h :
  h = (firstn (length h - 20) h ++ trim h)%list
  /\ length (trim h) = Nat.min 20 (length h).
Proof.
  rewrite <- last_20_is_trim. unfold last_20. split.
  - symmetry. apply firstn_skipn.
  - rewrite length_skipn. lia.
Qed.

Lemma trim_length h : length (trim h) <= 20.
Proof. destruct (trim_suffix h) as [_ H]. lia. Qed.

Lemma history_of_opened w : history_of (opened w) = history_of w.
Proof. unfold opened, history_of. destruct (chat_history w) eqn:H; [now rewrite H | reflexivity]. Qed.

(** A call that does not end in the outer handler. *)
Lemma chat_body_returns user_input agent_executor w v w' :
  chat_body user_input agent_executor w = (Return v, w') ->
  exists formatted_history ex s,
    format_history (history_of w) [] = Return formatted_history
    /\ executor_for agent_executor = Return ex
    /\ engine_output ex {| input := user_input;
                           input_chat_history := formatted_history |} = PStr s
    /\ s <> EmptyString
    /\ v = PStr s
    /\ w' = {| chat_history := Some (trim (recorded user_input v (history_of w)));
               stdout := stdout w;
               calls := invoked ex {| input := user_input;
                                      input_chat_history := formatted_history |}
                          (calls w) |}.
Proof.
  rewrite chat_body_runs.
  destruct (format_history (history_of w) []) as [fh | e]; [| discriminate].
  destruct (executor_for agent_executor) as [ex | e]; [| discriminate].
  cbv zeta. intros H. injection H as <- <-.
  destruct (engine_output_text ex {| input := user_input; input_chat_history := fh |})
    as [s [Hs Hne]].
  exists fh, ex, s. rewrite Hs. auto 10.
Qed.

(** A call that ends in the outer handler appended nothing. *)
Lemma chat_body_raises user_input agent_executor w e w' :
  chat_body user_input agent_executor w = (Raise e, w') -> w' = opened w.
Proof.
  rewrite chat_body_runs.
  destruct (format_history (history_of w) []) as [fh | e0].
  - destruct (executor_for agent_executor) as [ex | e0].
    + discriminate.
    + intros H. now injection H as _ <-.
  - intros H. now injection H as _ <-.
Qed.


(** After a call the history is the old one, or the old one with the
    exchange recorded and cut. *)
Lemma chat_history_cases user_input agent_executor w :
  history_of (snd (chat user_input agent_executor w)) = history_of w
  \/ exists s, s <> EmptyString
       /\ history_of (snd (chat user_input agent_executor w)) =
          trim (recorded user_input (PStr s) (history_of w)).
Proof.
  unfold chat, try_except.
  destruct (chat_body user_input agent_executor w) as [[v | e] w'] eqn:H.
  - right. apply chat_body_returns in H.
    destruct H as (fh & ex & s & _ & _ & _ & Hs & -> & ->). exists s. auto.
  - left. apply chat_body_raises in H. subst w'. apply history_of_opened.
Qed.

(** *** Alternation *)

Lemma human_turn_inv x :
  human_turn x = true -> exists u, x = turn "human" (PStr u).
Proof.
  destruct x as [| | | | items | | |]; try discriminate.
  destruct items as [| r items]; try discriminate.
  destruct r as [| | | role | | | |]; try discriminate.
  destruct items as [| c items]; try discriminate.
  destruct c as [| | | text | | | |]; try discriminate.
  destruct items; try discriminate.
  simpl. intros H. apply String.eqb_eq in H. subst. now exists text.
Qed.

Lemma assistant_turn_inv x :
  assistant_turn x = true ->
  exists a, x = turn "assistant" (PStr a) /\ a <> EmptyString.
Proof.
  destruct x as [| | | | items | | |]; try discriminate.
  destruct items as [| r items]; try discriminate.
  destruct r as [| | | role | | | |]; try discriminate.
  destruct items as [| c items]; try discriminate.
  destruct c as [| | | text | | | |]; try discriminate.
  destruct items; try discriminate.
  simpl. intros H. apply andb_true_iff in H. destruct H as [Hr Hc].
  apply String.eqb_eq in Hr. subst. exists text. split; [reflexivity |].
  now apply text_not_empty.
Qed.

Lemma alternates_inv x y rest :
  alternates (x :: y :: rest) = true ->
  exists u a, x = turn "human" (PStr u) /\ y = turn "assistant" (PStr a)
              /\ a <> EmptyString /\ alternates rest = true.
Proof.
  simpl. intros H. apply andb_true_iff in H. destruct H as [H Hrest].
  apply andb_true_iff in H. destruct H as [Hx Hy].
  destruct (human_turn_inv x Hx) as [u ->].
  destruct (assistant_turn_inv y Hy) as [a [-> Ha]]. eauto 6.
Qed.

Lemma alternates_app h1 h2 :
  alternates h1 = true -> alternates (h1 ++ h2) = alternates h2.
Proof.
  induction h1 as [| x | x y l IH] using list_pair_ind; intros H.
  - reflexivity.
  - discriminate.
  - change (alternates ((x :: y :: l) ++ h2))
      with (human_turn x && assistant_turn y && alternates (l ++ h2)).
    simpl in H. apply andb_true_iff in H. destruct H as [-> Hl].
    now rewrite IH.
Qed.

Lemma alternates_skipn_even k : forall h,
  alternates h = true -> alternates (skipn (2 * k) h) = true.
Proof.
  induction k as [| k IH]; intros h H; [exact H |].
  replace (2 * S k) with (S (S (2 * k))) by lia.
  destruct h as [| x [| y rest]]; [reflexivity | discriminate |].
  simpl skipn. apply IH. simpl in H. apply andb_true_iff in H. apply H.
Qed.

Lemma alternates_even h : alternates h = true -> exists n, length h = 2 * n.
Proof.
  induction h as [| x | x y l IH] using list_pair_ind; intros H.
  - now exists 0.
  - discriminate.
  - simpl in H. apply andb_true_iff in H. destruct H as [_ Hl].
    destruct (IH Hl) as [n Hn]. exists (S n). simpl. lia.
Qed.

(** The cut keeps the alternation: it drops whole exchanges. *)
Lemma alternates_trim h : alternates h = true -> alternates (trim h) = true.
Proof.
  intros H. rewrite <- last_20_is_trim. unfold last_20.
  destruct (alternates_even h H) as [n ->].
  replace (2 * n - 20) with (2 * (n - 10)) by lia.
  now apply alternates_skipn_even.
Qed.

Lemma alternates_recorded user_input s h :
  s <> EmptyString -> alternates h = true ->
  alternates (recorded user_input (PStr s) h) = true.
Proof.
  intros Hs H. unfold recorded. destruct (eq_str (PStr s) no_response); [exact H |].
  rewrite <- app_assoc. rewrite (alternates_app _ _ H).
  simpl. destruct s; [contradiction | reflexivity].
Qed.

(** *** Invariants of a session *)

Lemma after_invariant (P : world -> Prop) :
  P initial_world -> (forall a w, P w -> P (perform a w)) ->
  forall session, P (after session).
Proof.
  intros Hinit Hstep session. unfold after.
  generalize dependent initial_world.
  induction session as [| a session IH]; intros w Hw; simpl; auto.
Qed.

Lemma clear_empties w : history_of (perform ClearHistory w) = [].
Proof.
  destruct w as [[h |] out cs]; reflexivity.
Qed.

Lemma perform_bounded a w :
  length (history_of w) <= 20 -> length (history_of (perform a w)) <= 20.
Proof.
  intros H. destruct a as [user_input agent_executor |].
  - simpl. destruct (chat_history_cases user_input agent_executor w) as [-> | [s [_ ->]]];
      [exact H | apply trim_length].
  - rewrite clear_empties. simpl. lia.
Qed.

Lemma perform_alternates a w :
  alternates (history_of w) = true -> alternates (history_of (perform a w)) = true.
Proof.
  intros H. destruct a as [user_input agent_executor |].
  - simpl. destruct (chat_history_cases user_input agent_executor w) as [-> | [s [Hs ->]]];
      [exact H |].
    now apply alternates_trim, alternates_recorded.
  - now rewrite clear_empties.
Qed.

(** *** Rendering the history *)


Lemma format_history_human u rest acc :
  format_history (turn "human" (PStr u) :: rest) acc =
  format_history rest (acc ++ [HumanMessage (PStr u)]).
Proof. reflexivity. Qed.

Lemma format_history_assistant a rest acc :
  a <> EmptyString ->
  format_history (turn "assistant" (PStr a) :: rest) acc =
  format_history rest (acc ++ [AIMessage (PStr a)]).
Proof. destruct a; [contradiction | reflexivity]. Qed.

(** A history of exchanges is rendered whole, turn for turn. *)
Lemma format_history_alternating h : forall acc,
  alternates h = true ->
  format_history h acc = Return (acc ++ flat_map kept h)%list.
Proof.
  induction h as [| x | x y l IH] using list_pair_ind; intros acc H.
  - simpl. now rewrite app_nil_r.
  - discriminate.
  - destruct (alternates_inv x y l H) as (u & a & -> & -> & Ha & Hl).
    rewrite format_history_human, (format_history_assistant a l _ Ha), (IH _ Hl).
    rewrite <- !app_assoc. simpl. destruct a; [contradiction | reflexivity].
Qed.

(** Each entry is kept or skipped on its own account, and what is kept
    comes out in the stored order. *)
Lemma format_history_keeps h : forall acc shown,
  format_history h acc = Return shown -> shown = (acc ++ flat_map kept h)%list.
Proof.
  induction h as [| msg h IH]; intros acc shown H.
  - simpl in *. injection H as <-. now rewrite app_nil_r.
  - assert (skip : format_history h acc = Return shown ->
                   shown = (acc ++ [] ++ flat_map kept h)%list) by apply IH.
    assert (keep : forall m, format_history h (acc ++ [m]) = Return shown ->
                   shown = (acc ++ [m] ++ flat_map kept h)%list).
    { intros m Hm. rewrite app_assoc. now apply IH. }
    destruct msg as [| | | | items | | |]; try (now apply skip).
    destruct items as [| role [| content [| ? ?]]]; try (now apply skip).
    simpl in *. destruct (eq_str role "human").
    + unfold new_message in H.
      destruct (isinstance_str content || content_ok content); [| discriminate].
      now apply keep.
    + destruct (eq_str role "assistant"); [| now apply skip].
      destruct (truthy content) as [[|] | e]; simpl in H;
        [| now apply skip | discriminate].
      destruct (isinstance_str content); [| now apply skip].
      unfold new_message in H.
      destruct (isinstance_str content || content_ok content); [| discriminate].
      now apply keep.
Qed.


(** *** Runs of recorded exchanges *)

Lemma alternates_exchanges xs :
  Forall (fun x => snd x <> EmptyString) xs ->
  alternates (flat_map exchange_turns xs) = true.
Proof.
  induction 1 as [| [u a] xs Ha _ IH]; [reflexivity |].
  simpl in *. rewrite IH. destruct a; [contradiction | reflexivity].
Qed.

Lemma messages_of_exchanges xs :
  Forall (fun x => snd x <> EmptyString) xs ->
  flat_map kept (flat_map exchange_turns xs) = flat_map exchange_messages xs.
Proof.
  induction 1 as [| [u a] xs Ha _ IH]; [reflexivity |].
  simpl in *. rewrite IH. destruct a; [contradiction | reflexivity].
Qed.

Lemma skipn_exchanges k : forall xs,
  skipn (2 * k) (flat_map exchange_turns xs) = flat_map exchange_turns (skipn k xs).
Proof.
  induction k as [| k IH]; intros xs; [reflexivity |].
  replace (2 * S k) with (S (S (2 * k))) by lia.
  destruct xs as [| x xs]; [reflexivity |]. simpl. apply IH.
Qed.

Lemma length_exchanges xs : length (flat_map exchange_turns xs) = 2 * length xs.
Proof. induction xs as [| x xs IH]; simpl; lia. Qed.

(** Cutting the stored turns to 20 is cutting the exchanges to 10. *)
Lemma trim_exchanges xs :
  trim (flat_map exchange_turns xs) =
  flat_map exchange_turns (skipn (length xs - 10) xs).
Proof.
  rewrite <- last_20_is_trim. unfold last_20. rewrite length_exchanges.
  replace (2 * length xs - 20) with (2 * (length xs - 10)) by lia.
  apply skipn_exchanges.
Qed.

Lemma last_of_last {A} (n : nat) (a b : list A) :
  let l := (skipn (length a - n) a ++ b)%list in
  skipn (length l - n) l = skipn (length (a ++ b) - n) (a ++ b)%list.
Proof.
  cbv zeta. rewrite !length_app, length_skipn.
  rewrite !skipn_app, length_skipn, skipn_skipn.
  f_equal; [f_equal; lia |].
  f_equal. lia.
Qed.

Lemma exchanges_history xs : forall w w' ys,
  exchanges w xs w' ->
  history_of w = flat_map exchange_turns (skipn (length ys - 10) ys) ->
  history_of w' =
  flat_map exchange_turns (skipn (length (ys ++ xs) - 10) (ys ++ xs)).
Proof.
  induction xs as [| x xs IH]; intros w w' ys Hrun Hw; inversion Hrun; subst.
  - now rewrite app_nil_r.
  - replace (ys ++ (user_input, answer) :: xs)%list
      with ((ys ++ [(user_input, answer)]) ++ xs)%list
      by (now rewrite <- app_assoc).
    eapply IH; [eassumption |].
    match goal with H : chat_body _ _ _ = _ |- _ => apply chat_body_returns in H;
      destruct H as (fh & ex & s & _ & _ & _ & _ & Hv & ->) end.
    injection Hv as <-. unfold history_of at 1. cbn [chat_history].
    unfold recorded. cbn [eq_str].
    destruct (String.eqb_spec answer no_response) as [| _]; [contradiction |].
    rewrite Hw, <- app_assoc.
    change ([turn "human" (PStr user_input)] ++ [turn "assistant" (PStr answer)])%list
      with (flat_map exchange_turns [(user_input, answer)]).
    rewrite <- flat_map_app, trim_exchanges. f_equal.
    apply (last_of_last 10 ys [(user_input, answer)]).
Qed.

Lemma exchanges_answers xs : forall w w',
  exchanges w xs w' -> Forall (fun x => snd x <> EmptyString) xs.
Proof.
  induction xs as [| x xs IH]; intros w w' Hrun; inversion Hrun; subst; constructor.
  - match goal with H : chat_body _ _ _ = _ |- _ => apply chat_body_returns in H;
      destruct H as (fh & ex & s & _ & _ & _ & Hs & Hv & _) end.
    injection Hv as <-. exact Hs.
  - eapply IH; eassumption.
Qed.




(** C3: in every state a session can reach the history holds at most 20
    turns; a call that runs to its end leaves the last 20 turns of the old
    history followed by what it appended, so what goes is the oldest; and
    after eleven recorded exchanges the history, and what the engine is shown
    of it, are the exchanges two to eleven, the first one being gone. *)
Theorem history_keeps_last_20 :
  (forall session, length (history_of (after session)) <= 20)
  /\ (forall user_input agent_executor w v w',
        chat_body user_input agent_executor w = (Return v, w') ->
        exists appended evicted,
          (appended = [] \/
           appended = [turn "human" (PStr user_input); turn "assistant" v])
          /\ (history_of w ++ appended = evicted ++ history_of w')%list
          /\ length (history_of w') = Nat.min 20 (length (history_of w ++ appended)))
  /\ (forall first rest w,
        length rest = 10 ->
        exchanges initial_world (first :: rest) w ->
        history_of w = flat_map exchange_turns rest
        /\ format_history (history_of w) [] =
           Return (flat_map exchange_messages rest)).
Proof.
  split; [| split].
  - apply (after_invariant (fun w => length (history_of w) <= 20));
      [simpl; lia | intros a w; apply perform_bounded].
  - intros user_input agent_executor w v w' H.
    apply chat_body_returns in H.
    destruct H as (fh & ex & s & _ & _ & _ & _ & -> & ->).
    unfold history_of at 2 4. cbn [chat_history].
    exists (if eq_str (PStr s) no_response then []
            else [turn "human" (PStr user_input); turn "assistant" (PStr s)]).
    assert (Hrec : recorded user_input (PStr s) (history_of w) =
                   (history_of w ++
                    (if eq_str (PStr s) no_response then []
                     else [turn "human" (PStr user_input); turn "assistant" (PStr s)]))%list).
    { unfold recorded. destruct (eq_str (PStr s) no_response).
      - now rewrite app_nil_r.
      - now rewrite <- app_assoc. }
    rewrite Hrec.
    eexists. split; [destruct (eq_str (PStr s) no_response); auto |].
    apply trim_suffix.
  - intros first rest w Hten Hrun.
    assert (Hh : history_of w = flat_map exchange_turns rest).
    { rewrite (exchanges_history _ _ _ [] Hrun eq_refl).
      simpl length. rewrite Hten. reflexivity. }
    split; [exact Hh |].
    assert (Hrest : Forall (fun x => snd x <> EmptyString) rest).
    { apply exchanges_answers in Hrun. now inversion Hrun. }
    rewrite Hh, format_history_alternating, messages_of_exchanges;
      [reflexivity | exact Hrest | now apply alternates_exchanges].
Qed.

(** C9, as amended: a call that does not end in the outer handler appends
    exactly the turns [("human", user_input)] and [("assistant", output)], in
    that order, unless its output is the text ["No response generated"], in
    which case it appends nothing; either way the history is then cut to its
    last 20 entries.  Hence in every state a session can reach the history
    has even length and alternates human and assistant turns from a human
    one, and the cut keeps that. *)
Theorem exchange_recorded_in_turn_order :
  (forall user_input agent_executor w v w',
      chat_body user_input agent_executor w = (Return v, w') ->
      (v <> PStr no_response ->
       history_of w' =
       trim (history_of w ++ [turn "human" (PStr user_input); turn "assistant" v]))
      /\ (v = PStr no_response -> history_of w' = trim (history_of w)))
  /\ (forall session,
        alternates (history_of (after session)) = true
        /\ Nat.even (length (history_of (after session))) = true)
  /\ (forall h, alternates h = true -> alternates (trim h) = true).
Proof.
  split; [| split].
  - intros user_input agent_executor w v w' H.
    apply chat_body_returns in H.
    destruct H as (fh & ex & s & _ & _ & _ & _ & -> & ->).
    unfold history_of at 1 3. cbn [chat_history]. unfold recorded. cbn [eq_str].
    destruct (String.eqb_spec s no_response) as [-> | Hne]; split; intros H.
    + now contradiction H.
    + reflexivity.
    + now rewrite <- app_assoc.
    + injection H as ->. now contradiction Hne.
  - intros session.
    assert (H : alternates (history_of (after session)) = true).
    { apply (after_invariant (fun w => alternates (history_of w) = true));
        [reflexivity | intros a w; apply perform_alternates]. }
    split; [exact H |].
    destruct (alternates_even _ H) as [n ->].
    rewrite Nat.even_mul. reflexivity.
  - apply alternates_trim.
Qed.




End History.

(** *** Sample sessions *)

(** Eleven questions, each answered ["Noted."]: the first one is gone from
    the history and from what the engine is shown. *)
Lemma history_keeps_last_20_witness :
  let ask q := Say q (Some (answering "Noted.")) in
  let rest := ["q2"; "q3"; "q4"; "q5"; "q6"; "q7"; "q8"; "q9"; "q10"; "q11"] in
  let w := after (rt := offline) (map ask ("q1" :: rest)) in
  history_of w = flat_map exchange_turns (map (fun q => (q, "Noted.")) rest)
  /\ format_history (rt := offline) (history_of w) [] =
     Return (flat_map exchange_messages (map (fun q => (q, "Noted.")) rest)).
Proof.
  cbv zeta.
  destruct (history_keeps_last_20 (rt := offline)) as (_ & _ & H).
  apply (H ("q1", "Noted.")); [reflexivity |].
  simpl map.
  repeat (eapply (exchanges_more _ _ (Some (answering "Noted.")));
          [vm_compute; reflexivity | discriminate |]).
  apply exchanges_done.
Defined.

(** One stored exchange, as the first part of the theorem describes it. *)
Lemma exchange_recorded_in_turn_order_witness :
  history_of (snd (chat_body (rt := offline) "hello" (Some (answering "Hi."))
                     initial_world)) =
  [turn "human" (PStr "hello"); turn "assistant" (PStr "Hi.")].
Proof.
  destruct (exchange_recorded_in_turn_order (rt := offline)) as (H & _).
  destruct (H "hello" (Some (answering "Hi.")) initial_world (PStr "Hi.")
              (snd (chat_body (rt := offline) "hello" (Some (answering "Hi."))
                      initial_world))) as [H1 _].
  - vm_compute. reflexivity.
  - rewrite H1 by discriminate. reflexivity.
Defined.

(** C9 as stated fails when the engine's text is ["No response generated"]:
    the call runs to its end outside the outer handler and appends nothing. *)
Lemma sentinel_answer_appends_nothing :
  fst (chat_body (rt := offline) "hello" (Some (answering no_response)) initial_world) =
  Return (PStr no_response)
  /\ history_of (snd (chat_body (rt := offline) "hello" (Some (answering no_response))
                        initial_world)) = [].
Proof. split; vm_compute; reflexivity. Qed.





(** The human branch of the loop has no guard on the content, as the
    assistant branch has.  A human turn with an empty text, which [chat]
    stores when called with the empty string, is rendered, not skipped. *)
Lemma empty_human_turn_is_rendered :
  history_of (after (rt := offline) [Say EmptyString (Some (answering "Tell me more."))]) =
  [turn "human" (PStr EmptyString); turn "assistant" (PStr "Tell me more.")]
  /\ format_history (rt := offline)
       (history_of (after (rt := offline)
                      [Say EmptyString (Some (answering "Tell me more."))])) [] =
     Return [HumanMessage (PStr EmptyString); AIMessage (PStr "Tell me more.")].
Proof. split; vm_compute; reflexivity. Qed.

(** And a human turn whose content is no string and does not pass the
    validation of the message class makes the whole render fail: [chat] then
    invokes nothing and answers with its apology. *)
Lemma malformed_human_turn_fails_the_render :
  let w := {| chat_history := Some [turn "human" PNone; turn "assistant" (PStr "Hi.")];
              stdout := []; calls := [] |} in
  format_history (rt := offline) (history_of w) [] =
  Raise (Exception "ValidationError" "content: invalid message content")
  /\ fst (chat (rt := offline) "more" (Some (answering "Try Dune.")) w) = Return (PStr sorry)
  /\ calls (snd (chat (rt := offline) "more" (Some (answering "Try Dune.")) w)) = [].
Proof. split; [| split]; vm_compute; reflexivity. Qed.

(** ** The run loop and the start-up checks *)

Section Startup.

Context {rt : Runtime}.

(** [cycles] counts the tool calls made so far; a run makes at most
    [remaining] more, and none once the clock, read before a Thinking or
    before a ToolCall, is over the ceiling. *)
Lemma orchestrate_bounds ex request :
  forall remaining cycles transcript w e n w',
    orchestrate ex request remaining cycles transcript w = (e, n, w') ->
    cycles <= n <= cycles + remaining
    /\ (forall k, cycles <= k ->
          (max_execution_time ex < elapsed (2 * k))%Z
          \/ (max_execution_time ex < elapsed (2 * k + 1))%Z ->
          n <= k).
Proof.
  assert (stay : forall cycles (e e0 : run_end) n (w w' : world) remaining,
            (e0, cycles, w) = (e, n, w') ->
            cycles <= n <= cycles + remaining
            /\ (forall k, cycles <= k ->
                  (max_execution_time ex < elapsed (2 * k))%Z
                  \/ (max_execution_time ex < elapsed (2 * k + 1))%Z ->
                  n <= k)).
  { intros cycles e e0 n w w' remaining H. injection H as _ <- _.
    split; [lia | auto]. }
  induction remaining as [| remaining IH]; intros cycles transcript w e n w' H;
    simpl in H.
  - destruct (Z.ltb_spec (max_execution_time ex) (elapsed (cycles + (cycles + 0))));
      [eapply stay, H |].
    destruct (agent ex request transcript) as [[name args | answer] | exc];
      eapply stay, H.
  - destruct (Z.ltb_spec (max_execution_time ex) (elapsed (cycles + (cycles + 0))))
      as [| Hthink]; [eapply stay, H |].
    destruct (agent ex request transcript) as [[name args | answer] | exc];
      [| eapply stay, H | eapply stay, H].
    destruct (Z.ltb_spec (max_execution_time ex) (elapsed (cycles + (cycles + 0) + 1)))
      as [| Hcall]; [eapply stay, H |].
    assert (Hnot : forall k, cycles <= k ->
              (max_execution_time ex < elapsed (2 * k))%Z
              \/ (max_execution_time ex < elapsed (2 * k + 1))%Z ->
              S cycles <= k).
    { intros k Hle Hlate. destruct (Nat.eq_dec k cycles) as [-> | Hne]; [| lia].
      simpl in Hlate. lia. }
    destruct (run_tool (tools ex) name args w) as [[text | exc] w1].
    + apply IH in H. destruct H as [Hn Hk]. split; [lia |].
      intros k Hle Hlate. apply Hk; [apply Hnot; assumption | exact Hlate].
    + injection H as _ <- _. split; [lia | exact Hnot].
Qed.

Lemma create_agent_ceilings ex :
  create_agent = Return ex ->
  max_iterations ex = 10 /\ max_execution_time ex = 120%Z.
Proof.
  unfold create_agent.
  destruct (ChatGroq groq_config) as [model | e]; [| discriminate].
  destruct (TavilySearchResults tavily_tool_config) as [search | e]; [| discriminate].
  simpl. intros H. injection H as <-. split; reflexivity.
Qed.

(** C5: the executor that [create_agent] builds carries the step ceiling 10
    and the time ceiling 120 s; under them a run of the loop always ends,
    whatever the model asks for and however often, after at most 10
    Thinking-ToolCall cycles, and no cycle is completed once the clock, read
    between two steps, shows more than 120 s. *)
Theorem agent_run_is_bounded (ex : AgentExecutor) (request : input_data) (w : world) :
  create_agent = Return ex ->
  max_iterations ex = 10 /\ max_execution_time ex = 120%Z
  /\ exists e cycles w',
       run_agent ex request w = (e, cycles, w')
       /\ cycles <= 10
       /\ forall k, (120 < elapsed (2 * k))%Z \/ (120 < elapsed (2 * k + 1))%Z ->
                    cycles <= k.
Proof.
  intros H. destruct (create_agent_ceilings ex H) as [Hsteps Htime].
  split; [exact Hsteps | split; [exact Htime |]].
  destruct (run_agent ex request w) as [[e cycles] w'] eqn:Hrun.
  exists e, cycles, w'. split; [reflexivity |].
  unfold run_agent in Hrun. apply orchestrate_bounds in Hrun.
  rewrite Hsteps, Htime in Hrun. destruct Hrun as [Hn Hk].
  split; [lia |]. intros k Hlate. apply Hk; [lia | exact Hlate].
Qed.

Lemma print_step {A} (line : string) (k : M A) (w : world) :
  (print line ;;; k) w = k (printed [line] w).
Proof. reflexivity. Qed.

Lemma printed_printed a b w : printed b (printed a w) = printed (a ++ b) w.
Proof.
  unfold printed. cbn [chat_history stdout calls].
  now rewrite map_app, app_assoc.
Qed.

(** The script up to its first exit, when a key is missing. *)
Lemma main_without_key stdin w :
  (missing "GROQ_API_KEY" = true ->
   main stdin w = (Return (Exit 1), printed (banner ++ groq_key_missing) w))
  /\ (missing "GROQ_API_KEY" = false -> missing "TAVILY_API_KEY" = true ->
      main stdin w = (Return (Exit 1), printed (banner ++ tavily_key_missing) w)).
Proof.
  split; [intros Hg | intros Hg Ht]; unfold main;
    rewrite !print_step, Hg; [| rewrite Ht]; rewrite !print_step;
    rewrite !printed_printed; reflexivity.
Qed.

(** C8: when either key is unset or empty the script prints which one is
    missing and exits with status 1 before it builds the agent: whatever is
    waiting on standard input is not read, no request is sent and the history
    is untouched. *)
Theorem missing_key_stops_startup (stdin : list string) (w : world) :
  missing "GROQ_API_KEY" = true \/ missing "TAVILY_API_KEY" = true ->
  exists w',
    main stdin w = (Return (Exit 1), w')
    /\ main stdin w = main [] w
    /\ calls w' = calls w
    /\ chat_history w' = chat_history w
    /\ (In ((nl ++ glyph_warning ++ "  GROQ_API_KEY not found in .env file!") ++ nl)
          (stdout w')
        \/ In ((nl ++ glyph_warning ++ "  TAVILY_API_KEY not found in .env file!") ++ nl)
             (stdout w')).
Proof.
  intros H.
  destruct (main_without_key stdin w) as [Hg Ht].
  destruct (main_without_key [] w) as [Hg0 Ht0].
  destruct (missing "GROQ_API_KEY") eqn:Hgroq.
  - exists (printed (banner ++ groq_key_missing) w).
    rewrite Hg, Hg0 by reflexivity. repeat (split; [reflexivity |]).
    left. cbn [printed stdout]. apply in_or_app. right.
    apply in_map with (f := fun line => line ++ nl).
    apply in_or_app. right. left. reflexivity.
  - destruct H as [H | H]; [discriminate |].
    exists (printed (banner ++ tavily_key_missing) w).
    rewrite Ht, Ht0 by auto. repeat (split; [reflexivity |]).
    right. cbn [printed stdout]. apply in_or_app. right.
    apply in_map with (f := fun line => line ++ nl).
    apply in_or_app. right. left. reflexivity.
Qed.

End Startup.

(** A model that asks for one more search every time is stopped after the
    tenth. *)
Lemma agent_run_is_bounded_witness :
  exists ex,
    create_agent (rt := canned (Return (PList []))) = Return ex
    /\ max_iterations ex = 10 /\ max_execution_time ex = 120%Z
    /\ exists e cycles w',
         run_agent (rt := canned (Return (PList []))) ex
           {| input := "a mystery"; input_chat_history := [] |} initial_world
         = (e, cycles, w')
         /\ cycles <= 10
         /\ forall k,
              (120 < elapsed (Runtime := canned (Return (PList []))) (2 * k))%Z
              \/ (120 < elapsed (Runtime := canned (Return (PList []))) (2 * k + 1))%Z ->
              cycles <= k.
Proof.
  eexists. split; [reflexivity |].
  apply (agent_run_is_bounded (rt := canned (Return (PList [])))). reflexivity.
Defined.

Example runaway_model_is_stopped :
  match create_agent (rt := canned (Return (PList []))) with
  | Return ex =>
      fst (run_agent (rt := canned (Return (PList []))) ex
             {| input := "a mystery"; input_chat_history := [] |} initial_world)
      = (Aborted, 10)
  | Raise _ => False
  end.
Proof. vm_compute. reflexivity. Qed.

(** No key at all in the environment, three lines waiting on standard input. *)
Lemma missing_key_stops_startup_witness :
  exists w',
    main (rt := offline) ["I love sci-fi"; "history"; "quit"] initial_world
    = (Return (Exit 1), w')
    /\ main (rt := offline) ["I love sci-fi"; "history"; "quit"] initial_world
       = main (rt := offline) [] initial_world
    /\ calls w' = calls initial_world
    /\ chat_history w' = chat_history initial_world
    /\ (In ((nl ++ glyph_warning ++ "  GROQ_API_KEY not found in .env file!") ++ nl)
          (stdout w')
        \/ In ((nl ++ glyph_warning ++ "  TAVILY_API_KEY not found in .env file!") ++ nl)
             (stdout w')).
Proof.
  apply (missing_key_stops_startup (rt := offline)). left. reflexivity.
Defined.

(** ** The model at work *)

(** One search result, as the provider returns it. *)
Example genre_search_numbers_its_items :
  fst (search_books_by_genre
         (rt := canned (Return (PList [PDict [("url", PStr "https://example.org/gone-girl");
                                              ("content", PStr "Gone Girl, a thriller.")]])))
         "mystery" initial_world) =
  Return ("Top books in mystery:" ++ nl ++ nl ++
          "1. Gone Girl, a thriller." ++ nl ++
          "Source: https://example.org/gone-girl" ++ nl ++ nl).
Proof. reflexivity. Qed.

Example details_are_not_numbered :
  fst (get_book_details
         (rt := canned (Return (PList [PDict [("content", PStr "412 pages.")]])))
         "Dune" EmptyString initial_world) =
  Return ("Details for 'Dune':" ++ nl ++ nl ++
          "412 pages." ++ nl ++ "Source: " ++ nl ++ nl).
Proof. reflexivity. Qed.

(** A result that is no list comes back as its text. *)
Example text_result_is_passed_on :
  fst (search_books_by_mood (rt := canned (Return (PStr "no results")))
         "uplifting" initial_world) = Return "no results".
Proof. reflexivity. Qed.

(** A result item that is a bare string has no [get]. *)
Example item_without_get_is_an_error :
  fst (search_where_to_buy (rt := canned (Return (PList [PStr "Dune at a shop"])))
         "Dune" initial_world) =
  Return "Error searching purchase options: 'str' object has no attribute 'get'".
Proof. reflexivity. Qed.

(** What [chat] makes of the executor's ways of not answering. *)
Example chat_on_none :
  fst (chat (rt := offline) "hello" (Some (fun _ => ([], Return PNone))) initial_world) =
  Return (PStr apology).
Proof. reflexivity. Qed.

Example chat_on_dict_without_output :
  fst (chat (rt := offline) "hello" (Some (fun _ => ([], Return (PDict []))))
         initial_world) = Return (PStr nothing_found).
Proof. reflexivity. Qed.

Example chat_on_output_that_is_no_string :
  fst (chat (rt := offline) "hello"
         (Some (fun _ => ([], Return (PDict [("output", PInt 5)])))) initial_world) =
  Return (PStr trouble).
Proof. reflexivity. Qed.

Example chat_on_object_with_output :
  fst (chat (rt := offline) "hello"
         (Some (fun _ => ([], Return (PObject "Reply" [("output", PStr "Try Dune.")]
                                        (Return true)))))
         initial_world) = Return (PStr "Try Dune.").
Proof. reflexivity. Qed.

(** No executor passed in and no credentials to build one: the outer handler
    answers and says so on the console. *)
Example chat_without_executor_offline :
  chat (rt := offline) "hello" None initial_world =
  (Return (PStr sorry),
   {| chat_history := Some [];
      stdout := ["Error in chat function: The api_key client option must be set" ++ nl];
      calls := [] |}).
Proof. reflexivity. Qed.

(** With both keys set and a model that never stops asking for searches, the
    script starts, answers one line with the stopped run's message and leaves
    on ['quit']. *)
Example script_session :
  let w := snd (main (rt := canned (Return (PList []))) ["a mystery, please"; "quit"]
                  initial_world) in
  fst (main (rt := canned (Return (PList []))) ["a mystery, please"; "quit"]
         initial_world) = Return Finished
  /\ history_of w = [turn "human" (PStr "a mystery, please");
                     turn "assistant" (PStr stopped_answer)]
  /\ length (calls w) = 11.
Proof. vm_compute. repeat split. Qed.

(** ** More about the lookup tools *)

Section LookupsMore.

Context {rt : Runtime}.

Lemma lookup_sends_only config query numbered header context w :
  sends_only (lookup config query numbered header context) config query w.
Proof.
  unfold sends_only. rewrite lookup_runs.
  destruct (TavilySearchResults config) as [search | e]; [| auto].
  destruct (bind_result _ _); cbn [snd searched chat_history stdout calls]; auto.
Qed.

(** Whatever the search does, a lookup never touches the conversation
    history, prints nothing, and sends no request but its own: none when its
    search tool cannot be built, and else exactly one, the one for its
    query, be the answer a result or an exception. *)
Theorem lookups_touch_nothing_else (x author : string) (w : world) :
  sends_only (search_books_by_genre x) (tavily 5)
    ("best " ++ x ++ " books 2024 2023 highly rated recommendations") w
  /\ sends_only (search_similar_books x) (tavily 5)
       ("books similar to " ++ x ++ " recommendations if you liked") w
  /\ sends_only (search_books_by_mood x) (tavily 5)
       (x ++ " books recommendations best rated") w
  /\ sends_only (get_book_details x author) (tavily 3)
       ((if negb (String.eqb author EmptyString) then x ++ " by " ++ author else x)
          ++ " book synopsis author information reading time pages") w
  /\ sends_only (search_where_to_buy x) (tavily 4)
       ("where to buy " ++ x ++ " book Amazon Goodreads library online") w.
Proof.
  rewrite genre_is_lookup, similar_is_lookup, mood_is_lookup, details_is_lookup,
    buy_is_lookup.
  split; [| split; [| split; [| split]]]; apply lookup_sends_only.
Qed.

Lemma append_empty (s : string) : s ++ EmptyString = s.
Proof. induction s as [| c s IH]; simpl; [reflexivity | now rewrite IH]. Qed.

Lemma format_results_step numbered i entries rest formatted :
  textual entries = true ->
  format_results numbered i (PDict entries :: rest) formatted
  = format_results numbered (S i) rest (formatted ++ item_text numbered i entries).
Proof.
  unfold textual, item_text, field_text. intros H.
  apply andb_true_iff in H. destruct H as [Hc Hu]. simpl.
  destruct (assoc "content" entries) as [[| | | c | | | |] |]; try discriminate;
    destruct (assoc "url" entries) as [[| | | u | | | |] |]; try discriminate;
    reflexivity.
Qed.

(** The loop on items that are dicts with text fields: every item is
    written, in order, numbered from [i] on. *)
Lemma format_results_textual numbered items : forall i formatted,
  forallb textual items = true ->
  format_results numbered i (map PDict items) formatted
  = Return (formatted ++ items_text numbered i items).
Proof.
  induction items as [| entries items IH]; intros i formatted H.
  - simpl. now rewrite append_empty.
  - simpl in H. apply andb_true_iff in H. destruct H as [He Hrest].
    cbn [map items_text]. rewrite (format_results_step _ _ _ _ _ He), (IH _ _ Hrest).
    now rewrite append_assoc.
Qed.

Lemma lookup_renders config query numbered header context w :
  renders (lookup config query numbered header context) config query numbered header w.
Proof.
  intros search Hs. split.
  - intros items Hq Htext. rewrite lookup_runs, Hs, Hq. cbn [bind_result render_results].
    now rewrite (format_results_textual _ _ _ _ Htext).
  - intros text Hq. rewrite lookup_runs, Hs, Hq. reflexivity.
Qed.

(** When the search answers with a list of dicts whose ['content'] and
    ['url'] are strings or are missing, a lookup returns its header followed
    by every item of the list, in order, the numbered ones counted from 1 and
    a missing field left empty; when it answers with a string, the lookup
    returns that string as it is, without header. *)
Theorem lookups_render_every_item (x author : string) (w : world) :
  renders (search_books_by_genre x) (tavily 5)
    ("best " ++ x ++ " books 2024 2023 highly rated recommendations") true
    ("Top books in " ++ x ++ ":" ++ nl ++ nl) w
  /\ renders (search_similar_books x) (tavily 5)
       ("books similar to " ++ x ++ " recommendations if you liked") true
       ("Books similar to '" ++ x ++ "':" ++ nl ++ nl) w
  /\ renders (search_books_by_mood x) (tavily 5)
       (x ++ " books recommendations best rated") true
       ("Books for " ++ x ++ " mood:" ++ nl ++ nl) w
  /\ renders (get_book_details x author) (tavily 3)
       ((if negb (String.eqb author EmptyString) then x ++ " by " ++ author else x)
          ++ " book synopsis author information reading time pages") false
       ("Details for '" ++ x ++ "':" ++ nl ++ nl) w
  /\ renders (search_where_to_buy x) (tavily 4)
       ("where to buy " ++ x ++ " book Amazon Goodreads library online") true
       ("Where to get '" ++ x ++ "':" ++ nl ++ nl) w.
Proof.
  rewrite genre_is_lookup, similar_is_lookup, mood_is_lookup, details_is_lookup,
    buy_is_lookup.
  split; [| split; [| split; [| split]]]; apply lookup_renders.
Qed.

End LookupsMore.

(** Two results, the second without a link. *)
Lemma lookups_render_every_item_witness :
  let items := [[("url", PStr "https://example.org/dune"); ("content", PStr "Dune.")];
                [("content", PStr "Hyperion.")]] in
  fst (search_books_by_genre (rt := canned (Return (PList (map PDict items))))
         "sci-fi" initial_world) =
  Return ("Top books in sci-fi:" ++ nl ++ nl ++
          "1. Dune." ++ nl ++ "Source: https://example.org/dune" ++ nl ++ nl ++
          "2. Hyperion." ++ nl ++ "Source: " ++ nl ++ nl).
Proof.
  cbv zeta.
  destruct (lookups_render_every_item
              (rt := canned (Return (PList (map PDict
                 [[("url", PStr "https://example.org/dune"); ("content", PStr "Dune.")];
                  [("content", PStr "Hyperion.")]]))))
              "sci-fi" EmptyString initial_world) as (H & _).
  destruct (H _ eq_refl) as [Hitems _].
  apply (Hitems [[("url", PStr "https://example.org/dune"); ("content", PStr "Dune.")];
                 [("content", PStr "Hyperion.")]]); reflexivity.
Defined.

(** ** More about [chat] *)

Section ChatMore.

Context {rt : Runtime}.

Lemma chat_handler_runs e w :
  (print ("Error in chat function: " ++ exn_message e) ;;; ret (PStr sorry)) w =
  (Return (PStr sorry), printed [("Error in chat function: " ++ exn_message e)%string] w).
Proof. reflexivity. Qed.

(** [chat] in one piece, its outer handler included. *)
Lemma chat_runs user_input agent_executor w :
  chat user_input agent_executor w =
  match format_history (history_of w) [] with
  | Raise e =>
      (Return (PStr sorry),
       printed [("Error in chat function: " ++ exn_message e)%string] (opened w))
  | Return formatted_history =>
      match executor_for agent_executor with
      | Raise e =>
          (Return (PStr sorry),
           printed [("Error in chat function: " ++ exn_message e)%string] (opened w))
      | Return ex =>
          let request := {| input := user_input;
                            input_chat_history := formatted_history |} in
          let output := engine_output ex request in
          (Return output,
           {| chat_history := Some (trim (recorded user_input output (history_of w)));
              stdout := stdout w;
              calls := invoked ex request (calls w) |})
      end
  end.
Proof.
  unfold chat, try_except. rewrite chat_body_runs.
  destruct (format_history (history_of w) []) as [fh | e]; [| apply chat_handler_runs].
  destruct (executor_for agent_executor) as [ex | e]; [| apply chat_handler_runs].
  reflexivity.
Qed.

Lemma opened_frame w :
  stdout (opened w) = stdout w /\ calls (opened w) = calls w.
Proof. unfold opened. destruct (chat_history w); auto. Qed.

Lemma handled_frame e w :
  fst (Return (PStr sorry) : result pyval,
       printed [("Error in chat function: " ++ exn_message e)%string] (opened w))
  = Return (PStr sorry)
  /\ calls (snd (Return (PStr sorry) : result pyval,
                 printed [("Error in chat function: " ++ exn_message e)%string]
                   (opened w))) = calls w
  /\ history_of (snd (Return (PStr sorry) : result pyval,
                      printed [("Error in chat function: " ++ exn_message e)%string]
                        (opened w))) = history_of w
  /\ stdout (snd (Return (PStr sorry) : result pyval,
                  printed [("Error in chat function: " ++ exn_message e)%string]
                    (opened w))) =
     (stdout w ++ [(("Error in chat function: " ++ exn_message e) ++ nl)%string])%list.
Proof.
  destruct (opened_frame w) as [Hout Hcalls].
  split; [reflexivity |]. cbn [snd printed calls stdout map]. rewrite Hout, Hcalls.
  split; [reflexivity |]. split; [| reflexivity].
  unfold history_of at 1. cbn [chat_history]. apply history_of_opened.
Qed.

(** A call of [chat] goes one of two ways.  Either the stored history can be
    rendered and an executor is at hand (passed in, or built on the spot):
    then the executor is invoked exactly once, with the user input as given
    and the rendering of the history as it stood before the call.  Or one of
    the two fails: then nothing is invoked, the history stays as it is,
    [chat] prints one line naming the error and the answer is the fixed
    apology. *)
Theorem chat_calls_engine_once (user_input : string) (agent_executor : option executor)
    (w : world) :
  (exists formatted_history ex,
      format_history (history_of w) [] = Return formatted_history
      /\ executor_for agent_executor = Return ex
      /\ calls (snd (chat user_input agent_executor w)) =
         (calls w
            ++ Invoke {| input := user_input; input_chat_history := formatted_history |}
            :: fst (ex {| input := user_input;
                          input_chat_history := formatted_history |}))%list)
  \/ (exists e,
        (format_history (history_of w) [] = Raise e
         \/ executor_for agent_executor = Raise e)
        /\ fst (chat user_input agent_executor w) = Return (PStr sorry)
        /\ calls (snd (chat user_input agent_executor w)) = calls w
        /\ history_of (snd (chat user_input agent_executor w)) = history_of w
        /\ stdout (snd (chat user_input agent_executor w)) =
           (stdout w ++ [(("Error in chat function: " ++ exn_message e) ++ nl)%string])%list).
Proof.
  rewrite chat_runs.
  destruct (format_history (history_of w) []) as [fh | e] eqn:Hf;
    [| right; exists e; split; [now left | apply handled_frame]].
  destruct (executor_for agent_executor) as [ex | e] eqn:Hex;
    [| right; exists e; split; [now right | apply handled_frame]].
  left. exists fh, ex. cbn [snd calls]. unfold invoked.
  rewrite <- app_assoc. auto.
Qed.


Lemma chat_answer user_input ex w formatted_history :
  format_history (history_of w) [] = Return formatted_history ->
  fst (chat user_input (Some ex) w) =
  Return (engine_output ex {| input := user_input;
                              input_chat_history := formatted_history |}).
Proof. intros Hf. rewrite chat_runs, Hf. reflexivity. Qed.

(** What [chat] answers, by what the executor returns, once the history is
    rendered: the text under ['output'] of a dict when it is a non-empty
    string, and a bare non-empty string as it is; for [None], for a dict
    whose ['output'] is missing or empty, and for a dict whose ['output'] is
    no string, one fixed text each. *)
Theorem chat_answer_table (user_input : string) (ex : executor) (w : world)
    (formatted_history : list message) :
  format_history (history_of w) [] = Return formatted_history ->
  let response :=
    snd (ex {| input := user_input; input_chat_history := formatted_history |}) in
  let answer := fst (chat user_input (Some ex) w) in
  (forall entries s,
      response = Return (PDict entries) -> assoc "output" entries = Some (PStr s) ->
      s <> EmptyString -> answer = Return (PStr s))
  /\ (forall s, response = Return (PStr s) -> s <> EmptyString -> answer = Return (PStr s))
  /\ (response = Return PNone -> answer = Return (PStr apology))
  /\ (forall entries,
        response = Return (PDict entries) ->
        assoc "output" entries = None
        \/ (exists v, assoc "output" entries = Some v /\ truthy v = Return false) ->
        answer = Return (PStr nothing_found))
  /\ (forall entries v,
        response = Return (PDict entries) -> assoc "output" entries = Some v ->
        truthy v = Return true -> isinstance_str v = false ->
        answer = Return (PStr trouble)).
Proof.
  intros Hf. cbv zeta. rewrite (chat_answer _ _ _ _ Hf). unfold engine_output.
  split; [| split; [| split; [| split]]].
  - intros entries s -> Hout Hs. pose proof (text_truthy s Hs) as Ht.
    unfold response_output, py_not. cbn [method_get bind_result].
    rewrite Hout.
    do 3 (cbn [bind_result negb orb isinstance_str]; rewrite ?Ht). reflexivity.
  - intros s -> Hs. pose proof (text_truthy s Hs) as Ht.
    unfold response_output, py_not.
    cbn [getattr py_str bind_result].
    do 3 (cbn [bind_result negb orb isinstance_str]; rewrite ?Ht). reflexivity.
  - intros ->. reflexivity.
  - intros entries -> [Hout | (v & Hout & Hv)]; unfold response_output, py_not;
      cbn [method_get bind_result]; rewrite Hout; [reflexivity |].
    do 3 (cbn [bind_result negb orb isinstance_str]; rewrite ?Hv). reflexivity.
  - intros entries v -> Hout Hv Hs. unfold response_output, py_not.
    cbn [method_get bind_result]. rewrite Hout.
    do 3 (cbn [bind_result negb orb]; rewrite ?Hv). now rewrite Hs.
Qed.

End ChatMore.


(** The executor answers with a dict that holds a recommendation. *)
Lemma chat_answer_table_witness :
  fst (chat (rt := offline) "sci-fi" (Some (answering "Try Dune.")) initial_world)
  = Return (PStr "Try Dune.").
Proof.
  destruct (chat_answer_table (rt := offline) "sci-fi" (answering "Try Dune.")
              initial_world [] eq_refl) as (H & _).
  apply (H [("output", PStr "Try Dune.")] "Try Dune."); [reflexivity | reflexivity |].
  discriminate.
Defined.

(** ** The read-answer loop of the script *)

Section Loop.

Context {rt : Runtime}.

(** *** Running safely *)

Lemma sound_frame h out cs out' cs' :
  sound {| chat_history := h; stdout := out; calls := cs |} ->
  sound {| chat_history := h; stdout := out'; calls := cs' |}.
Proof. exact (fun H => H). Qed.

Lemma safely_ret {A} (a : A) (Q : A -> Prop) : Q a -> runs_safely (ret a) Q.
Proof. intros H w Hw. exists a, w. auto. Qed.

Lemma safely_bind {A B} (m : M A) (k : A -> M B) (Q1 : A -> Prop) (Q2 : B -> Prop) :
  runs_safely m Q1 -> (forall a, Q1 a -> runs_safely (k a) Q2) ->
  runs_safely (bind m k) Q2.
Proof.
  intros Hm Hk w Hw. destruct (Hm w Hw) as (a & w1 & Hrun & Hw1 & Ha).
  unfold bind. rewrite Hrun. now apply Hk.
Qed.

Lemma safely_write text : runs_safely (write text) (fun _ => True).
Proof.
  intros [h out cs] Hw. eexists tt, _. split; [reflexivity |]. split; [| exact I].
  exact Hw.
Qed.

Lemma safely_print line : runs_safely (print line) (fun _ => True).
Proof. apply safely_write. Qed.

Lemma safely_try {A} (body : M A) (handler : exn -> M A) (Q : A -> Prop) :
  runs_safely body Q -> runs_safely (try_except body handler) Q.
Proof.
  intros Hb w Hw. destruct (Hb w Hw) as (a & w1 & Hrun & Hw1 & Ha).
  unfold try_except. rewrite Hrun. eauto.
Qed.

Lemma safely_weaken {A} (m : M A) (Q Q' : A -> Prop) :
  runs_safely m Q -> (forall a, Q a -> Q' a) -> runs_safely m Q'.
Proof.
  intros Hm HQ w Hw. destruct (Hm w Hw) as (a & w1 & Hrun & Hw1 & Ha). eauto 6.
Qed.

Lemma opened_set w : chat_history (opened w) <> None.
Proof.
  unfold opened. destruct (chat_history w) eqn:H; [now rewrite H | discriminate].
Qed.

(** [chat] keeps a sound state sound and answers with a text. *)
Lemma safely_chat user_input agent_executor :
  runs_safely (chat user_input agent_executor) (fun v => exists s, v = PStr s).
Proof.
  intros w [Hset Halt].
  assert (Hafter : alternates (history_of (snd (chat user_input agent_executor w))) = true)
    by exact (perform_alternates (Say user_input agent_executor) w Halt).
  rewrite chat_runs in *.
  assert (handled : forall e,
            alternates (history_of
              (snd (Return (PStr sorry) : result pyval,
                    printed [("Error in chat function: " ++ exn_message e)%string]
                      (opened w)))) = true ->
            exists a w',
              (Return (PStr sorry) : result pyval,
               printed [("Error in chat function: " ++ exn_message e)%string] (opened w))
              = (Return a, w') /\ sound w' /\ exists s, a = PStr s).
  { intros e H. eexists _, _. split; [reflexivity |]. split; [| eauto].
    split; [apply opened_set | exact H]. }
  destruct (format_history (history_of w) []) as [fh | e]; [| now apply handled].
  destruct (executor_for agent_executor) as [ex | e]; [| now apply handled].
  cbv zeta in *.
  destruct (engine_output_text ex {| input := user_input; input_chat_history := fh |})
    as [s [Hs _]].
  rewrite Hs in *. eexists _, _. split; [reflexivity |]. split; [| eauto].
  split; [discriminate | exact Hafter].
Qed.

Lemma safely_clear : runs_safely chat_history_clear (fun _ => True).
Proof.
  intros [[h |] out cs] [Hset _]; [| now contradiction Hset].
  eexists tt, _. split; [reflexivity |]. split; [| exact I].
  split; [discriminate | reflexivity].
Qed.

(** A history of exchanges can be listed. *)
Lemma safely_print_history h :
  alternates h = true -> runs_safely (print_history h) (fun _ => True).
Proof.
  induction h as [| x | x y l IH] using list_pair_ind; intros H.
  - now apply safely_ret.
  - discriminate.
  - destruct (alternates_inv x y l H) as (u & a & -> & -> & _ & Hl).
    cbn [print_history turn].
    change (lift (py_str (PStr "human"))) with (ret (A := string) "human").
    change (lift (py_str (PStr "assistant"))) with (ret (A := string) "assistant").
    eapply safely_bind; [now apply (safely_ret _ (fun _ => True)) | intros r _].
    eapply safely_bind; [apply safely_print | intros _ _].
    eapply safely_bind; [now apply (safely_ret _ (fun _ => True)) | intros r' _].
    eapply safely_bind; [apply safely_print | intros _ _].
    now apply IH.
Qed.

(** The ['history'] command: the stored turns are listed, or the line that
    says there are none. *)
Lemma safely_history_command {B} (k : M B) (Q : B -> Prop) :
  runs_safely k Q ->
  runs_safely
    (h <- get_chat_history ;;
     (match h with
      | None | Some [] => print "No chat history yet."
      | Some l => print_history l
      end) ;;; k)
    Q.
Proof.
  intros Hk w Hw. unfold bind at 1. unfold get_chat_history.
  destruct Hw as [Hset Halt]. unfold history_of in Halt.
  destruct (chat_history w) as [[| x l] |] eqn:Hh.
  - apply (safely_bind _ _ (fun _ => True) Q (safely_print _) (fun u _ => Hk)).
    split; [now rewrite Hh | unfold history_of; now rewrite Hh].
  - apply (safely_bind _ _ (fun _ => True) Q
             (safely_print_history (x :: l) Halt) (fun u _ => Hk)).
    split; [now rewrite Hh | unfold history_of; now rewrite Hh].
  - now contradiction Hset.
Qed.

Lemma safely_chat_loop (agent_executor : executor) (stdin : list string) :
  runs_safely (chat_loop agent_executor stdin) (fun status => status = Finished).
Proof.
  induction stdin as [| line stdin IH]; cbn [chat_loop].
  - eapply safely_bind; [apply safely_write | intros _ _].
    eapply safely_bind; [apply safely_print | intros _ _].
    now apply safely_ret.
  - eapply safely_bind; [apply safely_write | intros _ _]. cbv zeta.
    destruct (String.eqb (str_strip line) EmptyString); [exact IH |].
    destruct (existsb _ _).
    { eapply safely_bind; [apply safely_print | intros _ _]. now apply safely_ret. }
    destruct (String.eqb (str_lower (str_strip line)) "history").
    { eapply safely_bind; [apply safely_print | intros _ _].
      apply safely_history_command.
      eapply safely_bind; [apply safely_print | intros _ _]. exact IH. }
    destruct (String.eqb (str_lower (str_strip line)) "clear").
    { eapply safely_bind; [apply safely_clear | intros _ _].
      eapply safely_bind; [apply safely_print | intros _ _]. exact IH. }
    eapply safely_bind; [| intros _ _; exact IH].
    apply safely_try.
    eapply safely_bind; [apply safely_chat | intros v [s ->]].
    change (lift (py_str (PStr s))) with (ret (A := string) s).
    eapply safely_bind; [now apply (safely_ret _ (fun _ => True)) | intros r _].
    apply safely_print.
Qed.


(** Started in a state as [chat] and ['clear'] leave it, the loop never
    raises, whatever is typed and whatever the executor does: it ends, at
    ['quit'] or at the end of the input, with the script's normal exit, in
    such a state again. *)
Theorem chat_loop_never_crashes (agent_executor : executor) (stdin : list string) :
  runs_safely (chat_loop agent_executor stdin) (fun status => status = Finished).
Proof. apply safely_chat_loop. Qed.

End Loop.

(** A session of four lines at the prompt. *)
Lemma chat_loop_never_crashes_witness :
  exists status w',
    chat_loop (rt := offline) (answering "Try Dune.") ["sci-fi"; "history"; "clear"; "quit"]
      initial_world = (Return status, w')
    /\ sound w' /\ status = Finished.
Proof.
  apply (chat_loop_never_crashes (rt := offline) (answering "Try Dune.")
           ["sci-fi"; "history"; "clear"; "quit"] initial_world).
  split; [discriminate | reflexivity].
Defined.

(** ** What the loop sends to the engine, and when it stops reading *)

Section LoopCalls.

Context {rt : Runtime}.

Lemma grow_silent {A} (m : M A) (ok : call -> Prop) :
  (forall w, calls (snd (m w)) = calls w) -> calls_grow m ok.
Proof. intros H w. exists []. now rewrite H, app_nil_r. Qed.

Lemma grow_ret {A} (a : A) ok : calls_grow (ret a) ok.
Proof. now apply grow_silent. Qed.

Lemma grow_raise {A} e ok : calls_grow (raise (A := A) e) ok.
Proof. now apply grow_silent. Qed.

Lemma grow_lift {A} (r : result A) ok : calls_grow (lift r) ok.
Proof. now apply grow_silent. Qed.

Lemma grow_write text ok : calls_grow (write text) ok.
Proof. now apply grow_silent. Qed.

Lemma grow_print line ok : calls_grow (print line) ok.
Proof. now apply grow_silent. Qed.

Lemma grow_bind {A B} (m : M A) (k : A -> M B) ok :
  calls_grow m ok -> (forall a, calls_grow (k a) ok) -> calls_grow (bind m k) ok.
Proof.
  intros Hm Hk w. destruct (Hm w) as (added1 & H1 & Hok1). unfold bind.
  destruct (m w) as [[a | e] w1]; cbn [snd] in *.
  - destruct (Hk a w1) as (added2 & H2 & Hok2). exists (added1 ++ added2)%list.
    rewrite H2, H1, app_assoc. split; [reflexivity | now apply Forall_app].
  - eauto.
Qed.

Lemma grow_try {A} (body : M A) (handler : exn -> M A) ok :
  calls_grow body ok -> (forall e, calls_grow (handler e) ok) ->
  calls_grow (try_except body handler) ok.
Proof.
  intros Hb Hh w. destruct (Hb w) as (added1 & H1 & Hok1). unfold try_except.
  destruct (body w) as [[a | e] w1]; cbn [snd] in *.
  - eauto.
  - destruct (Hh e w1) as (added2 & H2 & Hok2). exists (added1 ++ added2)%list.
    rewrite H2, H1, app_assoc. split; [reflexivity | now apply Forall_app].
Qed.

Lemma grow_get {B} (k : option (list pyval) -> M B) ok :
  (forall h, calls_grow (k h) ok) -> calls_grow (bind get_chat_history k) ok.
Proof. intros Hk. apply grow_bind; [now apply grow_silent | exact Hk]. Qed.

Lemma grow_print_history h ok : calls_grow (print_history h) ok.
Proof.
  induction h as [| entry h IH]; [apply grow_ret |].
  assert (wrong : calls_grow
            (raise (A := unit)
               (Exception "TypeError" "history entry is not a (role, message) pair")) ok)
    by apply grow_raise.
  destruct entry as [| | | | items | | |]; try exact wrong.
  destruct items as [| role items]; try exact wrong.
  destruct items as [| message items]; try exact wrong.
  destruct message as [| | | text | | | |]; try exact wrong.
  destruct items; try exact wrong.
  cbn [print_history].
  apply grow_bind; [apply grow_lift | intros r].
  apply grow_bind; [apply grow_print | intros _]. exact IH.
Qed.

Lemma grow_clear ok : calls_grow chat_history_clear ok.
Proof.
  apply grow_get. intros [h |]; [now apply grow_silent | apply grow_raise].
Qed.

(** What [chat] adds: nothing, or the invocation and the executor's own
    calls. *)
Lemma grow_chat user_input ex (ok : call -> Prop) :
  (forall shown, ok (Invoke {| input := user_input; input_chat_history := shown |})) ->
  (forall request, Forall ok (fst (ex request))) ->
  calls_grow (chat user_input (Some ex)) ok.
Proof.
  intros Hinvoke Hex w. rewrite chat_runs. destruct (opened_frame w) as [_ Hcalls].
  destruct (format_history (history_of w) []) as [fh | e].
  - cbn [executor_for snd calls]. cbv zeta. unfold invoked.
    exists (Invoke {| input := user_input; input_chat_history := fh |}
              :: fst (ex {| input := user_input; input_chat_history := fh |})).
    split; [now rewrite <- app_assoc | constructor; auto].
  - exists []. cbn [snd printed calls]. rewrite Hcalls, app_nil_r. auto.
Qed.

Lemma from_request_more line stdin c :
  from_request stdin c -> from_request (line :: stdin) c.
Proof.
  destruct c as [config query | request]; [auto |].
  intros (l & Hin & Hl). exists l. split; [now right | exact Hl].
Qed.

Lemma grow_more {A} (m : M A) line stdin :
  calls_grow m (from_request stdin) -> calls_grow m (from_request (line :: stdin)).
Proof.
  intros H w. destruct (H w) as (added & Hadd & Hok). exists added.
  split; [exact Hadd |]. eapply Forall_impl; [| exact Hok].
  intros c. apply from_request_more.
Qed.

(** With an executor that invokes nothing itself, every invocation the loop
    makes carries a line of the input, stripped, that is neither blank nor
    one of the commands ['quit'], ['exit'], ['q'], ['history'], ['clear']:
    blank lines and commands never reach the engine. *)
Theorem only_requests_reach_engine (agent_executor : executor) (stdin : list string) :
  (forall request, Forall is_search (fst (agent_executor request))) ->
  calls_grow (chat_loop agent_executor stdin) (from_request stdin).
Proof.
  intros Hex.
  induction stdin as [| line stdin IH]; cbn [chat_loop].
  - apply grow_bind; [apply grow_write | intros _].
    apply grow_bind; [apply grow_print | intros _]. apply grow_ret.
  - apply (grow_more _ line) in IH.
    apply grow_bind; [apply grow_write | intros _]. cbv zeta.
    destruct (String.eqb (str_strip line) EmptyString) eqn:Hblank; [exact IH |].
    destruct (existsb (String.eqb (str_lower (str_strip line))) ["quit"; "exit"; "q"])
      eqn:Hquit.
    { apply grow_bind; [apply grow_print | intros _]. apply grow_ret. }
    destruct (String.eqb (str_lower (str_strip line)) "history") eqn:Hhistory.
    { apply grow_bind; [apply grow_print | intros _].
      apply grow_get. intros h.
      apply grow_bind;
        [destruct h as [[| x l] |];
           [apply grow_print | apply grow_print_history | apply grow_print] | intros _].
      apply grow_bind; [apply grow_print | intros _]. exact IH. }
    destruct (String.eqb (str_lower (str_strip line)) "clear") eqn:Hclear.
    { apply grow_bind; [apply grow_clear | intros _].
      apply grow_bind; [apply grow_print | intros _]. exact IH. }
    apply grow_bind; [| intros _; exact IH].
    apply grow_try; [| intros e; apply grow_print].
    apply grow_bind; [| intros response].
    + apply grow_chat.
      * intros shown. exists line. split; [now left |]. split; [reflexivity |].
        unfold is_request, blank. rewrite Hblank.
        cbn [existsb] in *. apply orb_false_iff in Hquit. destruct Hquit as [Hq1 Hquit].
        apply orb_false_iff in Hquit. destruct Hquit as [Hq2 Hquit].
        apply orb_false_iff in Hquit. destruct Hquit as [Hq3 _].
        now rewrite Hq1, Hq2, Hq3, Hhistory, Hclear.
      * intros request. eapply Forall_impl; [| apply Hex].
        intros [config query | r]; [auto | contradiction].
    + apply grow_bind; [apply grow_lift | intros r]. apply grow_print.
Qed.

Lemma bind_ext {A B} (m : M A) (k k' : A -> M B) w :
  (forall a w1, k a w1 = k' a w1) -> bind m k w = bind m k' w.
Proof. intros H. unfold bind. destruct (m w) as [[a | e] w1]; [apply H | reflexivity]. Qed.

(** The loop stops reading at the first line that says ['quit'], ['exit'] or
    ['q']: what follows it on the input makes no difference to what the
    script does. *)
Theorem nothing_is_read_after_quit (agent_executor : executor)
    (before : list string) (line : string) (rest : list string) (w : world) :
  quits line = true ->
  chat_loop agent_executor (before ++ line :: rest) w =
  chat_loop agent_executor (before ++ [line]) w.
Proof.
  intros Hquit. unfold quits, blank in Hquit. apply andb_true_iff in Hquit.
  destruct Hquit as [Hblank Hq]. apply negb_true_iff in Hblank.
  revert w. induction before as [| l before IH]; intros w; cbn [app chat_loop].
  - cbv zeta. now rewrite Hblank, Hq.
  - apply bind_ext. intros _ w1. cbv zeta.
    destruct (String.eqb (str_strip l) EmptyString); [apply IH |].
    destruct (existsb (String.eqb (str_lower (str_strip l))) ["quit"; "exit"; "q"]);
      [reflexivity |].
    destruct (String.eqb (str_lower (str_strip l)) "history").
    { apply bind_ext. intros _ w2. apply bind_ext. intros h w3.
      apply bind_ext. intros _ w4. apply bind_ext. intros _ w5. apply IH. }
    destruct (String.eqb (str_lower (str_strip l)) "clear").
    { apply bind_ext. intros _ w2. apply bind_ext. intros _ w3. apply IH. }
    apply bind_ext. intros _ w2. apply IH.
Qed.

End LoopCalls.

(** Five lines, of which one is a request. *)
Lemma only_requests_reach_engine_witness :
  calls_grow (chat_loop (rt := offline) (answering "Try Dune.")
                [" "; "history"; "sci-fi"; "clear"; "quit"])
    (from_request (rt := offline) [" "; "history"; "sci-fi"; "clear"; "quit"]).
Proof.
  apply (only_requests_reach_engine (rt := offline)). intros request. constructor.
Defined.

(** The lines after ['quit'] are not read. *)
Lemma nothing_is_read_after_quit_witness :
  chat_loop (rt := offline) (answering "Try Dune.")
    (["sci-fi"] ++ "quit" :: ["more"; "clear"]) initial_world =
  chat_loop (rt := offline) (answering "Try Dune.") (["sci-fi"] ++ ["quit"]) initial_world.
Proof.
  apply (nothing_is_read_after_quit (rt := offline)). reflexivity.
Defined.

(** ** The script once the keys are found *)

Section Script.

Context {rt : Runtime}.

Lemma start_agent_runs w :
  try_except
    (a <- lift create_agent ;;
     print (glyph_check ++ " Agent ready!" ++ nl) ;;;
     ret (Some (invoke a)))
    (fun e =>
       print (nl ++ glyph_cross ++ " Failed to initialize agent: " ++ exn_message e) ;;;
       ret None) w =
  match create_agent with
  | Return a =>
      (Return (Some (invoke a)), printed [(glyph_check ++ " Agent ready!" ++ nl)%string] w)
  | Raise e =>
      (Return None,
       printed [(nl ++ glyph_cross ++ " Failed to initialize agent: "
                    ++ exn_message e)%string] w)
  end.
Proof.
  unfold try_except, bind, lift. destruct create_agent; reflexivity.
Qed.

(** The script from its first line to the prompt, when both keys are set. *)
Lemma main_with_keys stdin w :
  missing "GROQ_API_KEY" = false -> missing "TAVILY_API_KEY" = false ->
  main stdin w =
  match create_agent with
  | Return a => chat_loop (invoke a) stdin (printed (banner ++ agent_started) w)
  | Raise e => (Return (Exit 1), printed (banner ++ agent_failed e) w)
  end.
Proof.
  intros Hg Ht. unfold main. rewrite !print_step, Hg, Ht, !print_step.
  rewrite bind_run, start_agent_runs.
  destruct create_agent as [a | e].
  - rewrite !print_step, !printed_printed. reflexivity.
  - rewrite !printed_printed. reflexivity.
Qed.

(** With both keys set, an agent that cannot be built also stops the script
    at start-up: it prints the cause and exits with status 1 without reading
    a line, sending a request or touching the history. *)
Theorem agent_failure_stops_startup (stdin : list string) (w : world) (e : exn) :
  missing "GROQ_API_KEY" = false -> missing "TAVILY_API_KEY" = false ->
  create_agent = Raise e ->
  exists w',
    main stdin w = (Return (Exit 1), w')
    /\ main stdin w = main [] w
    /\ calls w' = calls w
    /\ chat_history w' = chat_history w
    /\ In ((nl ++ glyph_cross ++ " Failed to initialize agent: " ++ exn_message e) ++ nl)
         (stdout w').
Proof.
  intros Hg Ht He. rewrite !(main_with_keys _ _ Hg Ht), He.
  eexists. repeat (split; [reflexivity |]).
  cbn [printed stdout]. apply in_or_app. right.
  apply in_map with (f := fun line => line ++ nl).
  apply in_or_app. right. right. right. left. reflexivity.
Qed.

Lemma sound_printed lines w : sound w -> sound (printed lines w).
Proof. exact (fun H => H). Qed.

(** With both keys set and the agent built, the script started from the
    imported module, or from any state [chat] leaves, always ends with its
    normal exit, whatever is typed and whatever the agent does: status 1 is
    left at start-up only. *)
Theorem started_script_ends_normally (stdin : list string) (w : world)
    (a : AgentExecutor) :
  missing "GROQ_API_KEY" = false -> missing "TAVILY_API_KEY" = false ->
  create_agent = Return a ->
  sound w ->
  exists w', main stdin w = (Return Finished, w') /\ sound w'.
Proof.
  intros Hg Ht Ha Hw. rewrite (main_with_keys _ _ Hg Ht), Ha.
  destruct (safely_chat_loop (invoke a) stdin (printed (banner ++ agent_started) w)
              (sound_printed _ _ Hw)) as (status & w' & Hrun & Hw' & ->).
  eauto.
Qed.

End Script.

(** The keys are set but the provider refuses to build the model. *)
Lemma agent_failure_stops_startup_witness :
  let rt := {| str_object := str_object (Runtime := offline);
               content_ok := content_ok (Runtime := offline);
               TavilySearchResults := TavilySearchResults (Runtime := offline);
               ChatGroq := ChatGroq (Runtime := offline);
               elapsed := elapsed (Runtime := offline);
               getenv := fun _ => Some "set";
               str_strip := str_strip (Runtime := offline);
               str_lower := str_lower (Runtime := offline);
               str_len := str_len (Runtime := offline);
               str_prefix := str_prefix (Runtime := offline) |} in
  exists w',
    main (rt := rt) ["sci-fi"; "quit"] initial_world = (Return (Exit 1), w')
    /\ main (rt := rt) ["sci-fi"; "quit"] initial_world = main (rt := rt) [] initial_world
    /\ calls w' = calls initial_world
    /\ chat_history w' = chat_history initial_world
    /\ In ((nl ++ glyph_cross ++ " Failed to initialize agent: "
              ++ "The api_key client option must be set") ++ nl)
         (stdout w').
Proof.
  intros rt.
  apply (agent_failure_stops_startup (rt := rt) ["sci-fi"; "quit"] initial_world
           (Exception "GroqError" "The api_key client option must be set"));
    reflexivity.
Defined.

(** The keys are set and the agent is built. *)
Lemma started_script_ends_normally_witness :
  exists a,
    create_agent (rt := canned (Return (PList []))) = Return a
    /\ exists w',
         main (rt := canned (Return (PList []))) ["a mystery, please"; "quit"] initial_world
         = (Return Finished, w')
         /\ sound w'.
Proof.
  eexists. split; [reflexivity |].
  eapply (started_script_ends_normally (rt := canned (Return (PList []))));
    [reflexivity | reflexivity | reflexivity | split; [discriminate | reflexivity]].
Defined.

(** * Facts about the page *)

Import Page.

Section Markup.

Context {rt : Runtime} {sl : Streamlit}.

Lemma string_pair_ind (P : string -> Prop) :
  P EmptyString ->
  (forall c, P (String c EmptyString)) ->
  (forall c d s, P s -> P (String d s) -> P (String c (String d s))) ->
  forall s, P s.
Proof.
  intros H0 H1 H2.
  assert (both : forall s, P s /\ forall c, P (String c s)).
  { induction s as [| d s [IHs IHc]].
    - split; [exact H0 | exact H1].
    - split; [apply IHc |]. intros c. apply H2; [exact IHs | apply IHc]. }
  intros s. apply both.
Qed.

(** A text in which [old] does not occur is left as it is. *)
Lemma replace_absent old new s : occurs old s = false -> str_replace old new s = s.
Proof.
  unfold str_replace. induction s as [| c s IH]; [reflexivity |].
  cbn [occurs]. intros H. apply orb_false_elim in H as [H1 H2].
  cbn [replace_from]. rewrite H1. f_equal. now apply IH.
Qed.

(** Once [**] has been replaced by the opening tag, no [**] is left. *)
Lemma no_stars_left s : occurs "**" (str_replace "**" "<strong>" s) = false.
Proof.
  unfold str_replace. induction s as [| c | c d s IHs IHd] using string_pair_ind.
  - reflexivity.
  - cbn [replace_from starts_with]. rewrite andb_false_r.
    cbn [occurs starts_with]. now rewrite andb_false_r.
  - cbn [replace_from starts_with].
    destruct (Ascii.eqb "*" c) eqn:Ec; cbn [andb].
    + destruct (Ascii.eqb "*" d) eqn:Ed; cbn [andb].
      * simpl. exact IHs.
      * cbn [occurs starts_with]. rewrite Ed, ?andb_false_r. cbn [andb orb]. exact IHs.
    + cbn [occurs starts_with]. rewrite Ec. cbn [andb orb]. exact IHd.
Qed.

(** The second of the two replacements of [**] finds nothing to replace. *)
Lemma strong_opens s : strong s = str_replace "**" "<strong>" s.
Proof. unfold strong. apply replace_absent, no_stars_left. Qed.

Lemma time_time_step {A} (k : pyval -> App A) s :
  (now <~ time_time ;; k now) s =
  k (clock (ticks s))
    {| session := session s; agent_module := agent_module s;
       ticks := S (ticks s); page := page s |}.
Proof. reflexivity. Qed.

(** The bubble of a message of the page. *)
Lemma bubble_runs role content ts s :
  bubble (message_dict role (PStr content) ts) s =
  (Return ((if String.eqb role "user" then user_bubble else assistant_bubble)
             (safe_content_of content) (strftime_HM ts)),
   {| session := session s; agent_module := agent_module s;
      ticks := S (ticks s); page := page s |}).
Proof.
  unfold bubble, message_dict, app_bind, app_lift, time_time, safe_content_of.
  cbn [method_get assoc String.eqb Ascii.eqb Bool.eqb method_replace eq_str].
  destruct (String.eqb role "user"); reflexivity.
Qed.

(** What the chat box makes of the text of a message, whoever wrote it:
    every newline becomes a line break and every [**] an opening tag, none a
    closing one; and a text that holds neither is put into the page as it
    is, the characters of the markup included, for nothing is escaped. *)
Theorem message_markup (role content : string) (ts : pyval) (s : app) :
  let frame := if String.eqb role "user" then user_bubble else assistant_bubble in
  fst (bubble (message_dict role (PStr content) ts) s) =
  Return (frame (str_replace "**" "<strong>" (str_replace nl "<br>" content))
                (strftime_HM ts))
  /\ (occurs nl content = false -> occurs "**" content = false ->
      fst (bubble (message_dict role (PStr content) ts) s) =
      Return (frame content (strftime_HM ts))).
Proof.
  cbv zeta. rewrite bubble_runs. cbn [fst]. unfold safe_content_of.
  rewrite strong_opens. split; [reflexivity |].
  intros Hnl Hstars. now rewrite (replace_absent nl _ _ Hnl), (replace_absent _ _ _ Hstars).
Qed.

End Markup.

(** A reply that holds a tag of its own. *)
Lemma message_markup_witness :
  fst (bubble (sl := counting) (message_dict "assistant" (PStr "<i>Dune</i> & more") (PInt 0))
         new_app) =
  Return (assistant_bubble "<i>Dune</i> & more" "12:00").
Proof.
  apply (message_markup (sl := counting) "assistant" "<i>Dune</i> & more" (PInt 0) new_app);
    reflexivity.
Defined.

Section PageRuns.

Context {rt : Runtime} {sl : Streamlit}.

Lemma app_bind_run {A B} (m : App A) (k : A -> App B) s :
  app_bind m k s =
  match m s with
  | (Return a, s1) => k a s1
  | (Raise e, s1) => (Raise e, s1)
  end.
Proof. reflexivity. Qed.

Lemma show_step {A} (e : element) (k : App A) ss w t p :
  (show e ~; k) (Build_app ss w t p) = k (Build_app ss w t (p ++ [e])%list).
Proof. reflexivity. Qed.

Lemma update_session_step {A} f (k : App A) ss w t p :
  (update_session f ~; k) (Build_app ss w t p) = k (Build_app (f ss) w t p).
Proof. reflexivity. Qed.

Lemma get_session_step {A} (k : session_state -> App A) ss w t p :
  (x <~ get_session ;; k x) (Build_app ss w t p) = k ss (Build_app ss w t p).
Proof. reflexivity. Qed.

Lemma clock_step {A} (k : pyval -> App A) ss w t p :
  (now <~ time_time ;; k now) (Build_app ss w t p) = k (clock t) (Build_app ss w (S t) p).
Proof. reflexivity. Qed.

(** A stored message gets its bubble, for one reading of the clock. *)
Lemma bubble_stored msg ss w t p :
  stored_message msg = true ->
  bubble msg (Build_app ss w t p) = (Return (bubble_of msg), Build_app ss w (S t) p).
Proof.
  destruct msg as [| | | | | | entries |]; try discriminate.
  unfold stored_message, bubble_of, bubble.
  destruct (assoc "role" entries) as [role |] eqn:Hrole; [| discriminate].
  destruct role as [| | | role | | | |]; try discriminate.
  destruct (assoc "content" entries) as [content |] eqn:Hcontent; [| discriminate].
  destruct content as [| | | content | | | |]; try discriminate.
  destruct (assoc "ts" entries) as [ts |] eqn:Hts; [| discriminate].
  intros _. unfold app_bind, app_lift, time_time, method_get.
  rewrite Hrole, Hcontent, Hts. cbn [method_replace fst snd ticks session agent_module page].
  unfold safe_content_of. destruct (eq_str (PStr role) "user"); reflexivity.
Qed.

Lemma bubbles_runs ms : forall ss w t p,
  forallb stored_message ms = true ->
  bubbles ms (Build_app ss w t p) =
  (Return (map bubble_of ms), Build_app ss w (length ms + t) p).
Proof.
  induction ms as [| msg ms IH]; intros ss w t p H; [reflexivity |].
  cbn [forallb] in H. apply andb_prop in H as [Hmsg Hms].
  cbn [bubbles]. rewrite app_bind_run, (bubble_stored _ _ _ _ _ Hmsg).
  rewrite app_bind_run, (IH _ _ _ _ Hms). cbn [map length].
  unfold app_ret. now rewrite Nat.add_succ_r.
Qed.

Lemma render_chat_html_runs ms ss w t p :
  forallb stored_message ms = true ->
  render_chat_html ms (Build_app ss w t p) =
  (Return (chat_html ms), Build_app ss w (length ms + t) p).
Proof.
  intros H. destruct ms as [| msg ms]; [reflexivity |].
  unfold render_chat_html, chat_html. now rewrite app_bind_run, (bubbles_runs _ _ _ _ _ H).
Qed.

Lemma show_chat_step {A} (k : App A) ss w t p :
  forallb stored_message (messages ss) = true ->
  (show_chat ~; k) (Build_app ss w t p) =
  k (Build_app ss w (length (messages ss) + t) (p ++ [Chatbox (chat_html (messages ss))])%list).
Proof.
  intros H. unfold show_chat. rewrite app_bind_run, get_session_step, app_bind_run.
  now rewrite (render_chat_html_runs _ _ _ _ _ H).
Qed.

Lemma update_from_last_runs content old ts ms : forall ss w t p,
  update_from_last content (ms ++ [message_dict "assistant" old ts])%list (Build_app ss w t p) =
  (Return (Some (ms ++ [message_dict "assistant" content (clock t)])%list),
   Build_app ss w (S t) p).
Proof.
  induction ms as [| msg ms IH]; intros ss w t p.
  - reflexivity.
  - cbn [List.app update_from_last]. now rewrite app_bind_run, IH.
Qed.

Lemma update_last_assistant_step {A} (k : App A) content old ts ms ss w t p :
  messages ss = (ms ++ [message_dict "assistant" old ts])%list ->
  (update_last_assistant content ~; k) (Build_app ss w t p) =
  k (Build_app (with_messages (ms ++ [message_dict "assistant" content (clock t)])%list ss)
       w (S t) p).
Proof.
  intros H. unfold update_last_assistant.
  rewrite app_bind_run, get_session_step, app_bind_run, H, update_from_last_runs.
  reflexivity.
Qed.

Lemma get_agent_executor_cached_runs s : get_agent_executor_cached s = (built_agent, s).
Proof. unfold get_agent_executor_cached, built_agent. now destruct IMPORT_ERROR. Qed.

(** [chat] answers with a text, whatever it is given. *)
Lemma chat_answers text agent_executor w :
  exists reply w',
    chat text agent_executor w = (Return (PStr reply), w') /\ reply <> EmptyString.
Proof.
  rewrite chat_runs.
  destruct (format_history (history_of w) []) as [fh | e];
    [| exists sorry; eexists; split; [reflexivity | discriminate]].
  destruct (executor_for agent_executor) as [ex | e];
    [| exists sorry; eexists; split; [reflexivity | discriminate]].
  cbv zeta.
  destruct (engine_output_text ex {| input := text; input_chat_history := fh |})
    as (reply & -> & Hreply).
  exists reply. eexists. split; [reflexivity | exact Hreply].
Qed.

(** The inner [try] of the block always has a text to show; the state of
    the module is that which [chat] leaves, if [chat] could be imported. *)
Lemma agent_response_runs text a ss w t p :
  exists reply w',
    agent_response text a (Build_app ss w t p) = (Return (PStr reply), Build_app ss w' t p)
    /\ reply <> EmptyString
    /\ (IMPORT_ERROR = None ->
        chat text (Some (invoke a)) w = (Return (PStr reply), w'))
    /\ (IMPORT_ERROR <> None -> w' = w).
Proof.
  unfold agent_response, agent_chat. destruct IMPORT_ERROR as [e |] eqn:Himport.
  - eexists. exists w. split; [reflexivity |].
    split; [discriminate |]. split; [discriminate | reflexivity].
  - destruct (chat_answers text (Some (invoke a)) w) as (reply & w' & Hchat & Hreply).
    exists reply, w'. split; [| split; [exact Hreply | split; [intros _; exact Hchat |]]].
    + unfold app_try, app_bind, in_agent. cbn [agent_module session ticks page].
      rewrite Hchat. reflexivity.
    + intros H. now contradiction H.
Qed.

(** The block that processes a text, with an executor in the session: the
    two messages it adds, what it shows, and what it leaves of the module. *)
Lemma process_user_input_runs text a ss w t p :
  forallb stored_message (messages ss) = true ->
  agent_executor ss = Some a ->
  exists reply w' t1 t2 t3 t' start stop,
    process_user_input text (Build_app ss w t p) =
    (Return tt,
     Build_app
       (with_messages (messages ss ++ [message_dict "user" (PStr text) (clock t1);
                                       message_dict "assistant" (PStr reply) (clock t3)])%list
          ss)
       w' t'
       (p ++ [Chatbox (chat_html (messages ss
                                    ++ [message_dict "user" (PStr text) (clock t1)])%list);
              Chatbox (chat_html (messages ss
                                    ++ [message_dict "user" (PStr text) (clock t1);
                                        message_dict "assistant" (PStr thinking) (clock t2)])%list);
              Chatbox (chat_html (messages ss
                                    ++ [message_dict "user" (PStr text) (clock t1);
                                        message_dict "assistant" (PStr reply) (clock t3)])%list);
              ResponseTime start stop])%list)
    /\ reply <> EmptyString
    /\ (IMPORT_ERROR = None ->
        chat text (Some (invoke a)) w = (Return (PStr reply), w'))
    /\ (IMPORT_ERROR <> None -> w' = w).
Proof.
  intros Hstored Hexec. unfold process_user_input.
  rewrite clock_step. unfold append_message. rewrite update_session_step.
  assert (Hu : forallb stored_message
                 (messages ss ++ [message_dict "user" (PStr text) (clock t)])%list = true).
  { rewrite forallb_app, Hstored. reflexivity. }
  rewrite show_chat_step by exact Hu. cbn [messages with_messages].
  rewrite clock_step, update_session_step. cbn [messages with_messages].
  set (t2 := length (messages ss ++ [message_dict "user" (PStr text) (clock t)])%list + S t).
  assert (Hk : forallb stored_message
                 ((messages ss ++ [message_dict "user" (PStr text) (clock t)])
                    ++ [message_dict "assistant" (PStr thinking) (clock t2)])%list = true).
  { rewrite forallb_app, Hu. reflexivity. }
  rewrite show_chat_step by exact Hk. cbn [messages with_messages].
  unfold app_try. rewrite get_session_step. cbn [agent_executor with_messages].
  rewrite Hexec. rewrite app_bind_run. unfold app_ret at 1. rewrite clock_step, app_bind_run.
  match goal with
  | |- context [agent_response text a (Build_app ?ss1 w ?t1 ?p1)] =>
      destruct (agent_response_runs text a ss1 w t1 p1)
        as (reply & w' & -> & Hreply & Hchat & Hsame)
  end.
  rewrite (update_last_assistant_step _ _ (PStr thinking) (clock t2)
             (messages ss ++ [message_dict "user" (PStr text) (clock t)])%list)
    by reflexivity.
  match goal with
  | |- context [message_dict "assistant" (PStr reply) (clock ?x)] => set (t3 := x)
  end.
  assert (Ha : forallb stored_message
                 ((messages ss ++ [message_dict "user" (PStr text) (clock t)])
                    ++ [message_dict "assistant" (PStr reply) (clock t3)])%list = true).
  { rewrite forallb_app, Hu. reflexivity. }
  rewrite show_chat_step by exact Ha. cbn [messages with_messages].
  rewrite clock_step. unfold show.
  exists reply, w', t, t2, t3. do 3 eexists.
  split; [| split; [exact Hreply | split; [exact Hchat | exact Hsame]]].
  unfold with_messages.
  cbn [session agent_module ticks page messages agent_ready agent_executor last_error
       show_quick_start].
  rewrite <- !List.app_assoc. cbn [List.app]. reflexivity.
Qed.

Lemma ensure_agent_ready_builds a ss w t p :
  agent_ready ss = false ->
  built_agent = Return a ->
  ensure_agent_ready (Build_app ss w t p) =
  (Return a, Build_app (with_agent_ready true (with_agent_executor (Some a) ss)) w t p).
Proof.
  intros Hready Hbuilt. unfold ensure_agent_ready. rewrite get_session_step, Hready.
  rewrite app_bind_run, get_agent_executor_cached_runs, Hbuilt. reflexivity.
Qed.

Lemma ensure_agent_ready_fails e ss w t p :
  agent_ready ss = false ->
  built_agent = Raise e ->
  ensure_agent_ready (Build_app ss w t p) = (Raise e, Build_app ss w t p).
Proof.
  intros Hready Hbuilt. unfold ensure_agent_ready. rewrite get_session_step, Hready.
  rewrite app_bind_run, get_agent_executor_cached_runs, Hbuilt. reflexivity.
Qed.

Lemma with_agent_facts ss a :
  at_hand ss a ->
  agent_ready (with_agent a ss) = true
  /\ agent_executor (with_agent a ss) = Some a
  /\ messages (with_agent a ss) = messages ss.
Proof.
  unfold with_agent. intros [[Hready Hexec] | [Hready Hbuilt]]; rewrite Hready; auto.
Qed.

(** The initialization block, with an executor at hand and without. *)
Lemma agent_initialization_succeeds a ss w t p :
  at_hand ss a ->
  agent_initialization (Build_app ss w t p) =
  (Return true, Build_app (with_agent a ss) w t p).
Proof.
  unfold agent_initialization, with_agent. rewrite get_session_step.
  intros [[Hready Hexec] | [Hready Hbuilt]]; rewrite Hready; [reflexivity |].
  cbn [negb]. unfold app_try.
  now rewrite app_bind_run, (ensure_agent_ready_builds a) by assumption.
Qed.

Lemma agent_initialization_fails e ss w t p :
  agent_ready ss = false ->
  built_agent = Raise e ->
  agent_initialization (Build_app ss w t p) =
  (Return false,
   Build_app (with_last_error (Some (format_exc e)) ss) w t (p ++ failure_notice e)%list).
Proof.
  intros Hready Hbuilt. unfold agent_initialization. rewrite get_session_step, Hready.
  cbn [negb]. unfold app_try.
  rewrite app_bind_run, (ensure_agent_ready_fails e) by assumption.
  unfold failure_notice, app_bind, update_session, show, app_ret.
  cbn [session agent_module ticks page]. now rewrite <- !List.app_assoc.
Qed.

Lemma guide_step {A} (k : App A) ss w t p :
  ((if show_quick_start ss && Nat.eqb (length (messages ss)) 0 then show QuickStart
    else app_ret tt) ~; k) (Build_app ss w t p) =
  k (Build_app ss w t (p ++ guide ss)%list).
Proof.
  unfold guide. destruct (show_quick_start ss && Nat.eqb (length (messages ss)) 0).
  - reflexivity.
  - rewrite app_bind_run. unfold app_ret. now rewrite List.app_nil_r.
Qed.

(** The body of the page when the agent cannot be initialized. *)
Lemma page_body_stops e sub text ss w t p :
  agent_ready ss = false ->
  built_agent = Raise e ->
  page_body sub text (Build_app ss w t p) =
  (Return Stopped,
   Build_app (with_last_error (Some (format_exc e)) ss) w t
     ((p ++ guide ss) ++ failure_notice e)%list).
Proof.
  intros Hready Hbuilt. unfold page_body. rewrite get_session_step, guide_step.
  now rewrite app_bind_run, (agent_initialization_fails e) by assumption.
Qed.

(** The body of the page when no text is handed to the agent. *)
Lemma page_body_idle a sub text ss w t p :
  at_hand ss a ->
  forallb stored_message (messages ss) = true ->
  sub && negb (String.eqb text EmptyString)
    && negb (String.eqb (str_strip text) EmptyString) = false ->
  page_body sub text (Build_app ss w t p) =
  (Return Completed,
   Build_app (with_agent a ss) w (length (messages ss) + t)
     ((p ++ guide ss) ++ [Chatbox (chat_html (messages ss))])%list).
Proof.
  intros Ha Hstored Hidle. unfold page_body. rewrite get_session_step, guide_step.
  rewrite app_bind_run, (agent_initialization_succeeds a) by assumption.
  destruct (with_agent_facts ss a Ha) as (_ & _ & Hms).
  rewrite show_chat_step by now rewrite Hms.
  rewrite Hidle, Hms. reflexivity.
Qed.

(** The body of the page when a text is handed to the agent. *)
Lemma page_body_request a sub text ss w t p :
  at_hand ss a ->
  forallb stored_message (messages ss) = true ->
  sub && negb (String.eqb text EmptyString)
    && negb (String.eqb (str_strip text) EmptyString) = true ->
  exists reply w' t1 t3 t' before start stop,
    page_body sub text (Build_app ss w t p) =
    (Return Completed,
     Build_app
       (with_messages
          (messages ss ++ [message_dict "user" (PStr (str_strip text)) (clock t1);
                           message_dict "assistant" (PStr reply) (clock t3)])%list
          (with_agent a ss))
       w' t'
       (before
          ++ [Chatbox (chat_html
                         (messages ss
                            ++ [message_dict "user" (PStr (str_strip text)) (clock t1);
                                message_dict "assistant" (PStr reply) (clock t3)])%list);
              ResponseTime start stop])%list)
    /\ reply <> EmptyString
    /\ (IMPORT_ERROR = None ->
        chat (str_strip text) (Some (invoke a)) w = (Return (PStr reply), w'))
    /\ (IMPORT_ERROR <> None -> w' = w).
Proof.
  intros Ha Hstored Hrequest. unfold page_body. rewrite get_session_step, guide_step.
  rewrite app_bind_run, (agent_initialization_succeeds a) by assumption.
  destruct (with_agent_facts ss a Ha) as (_ & Hexec & Hms).
  rewrite show_chat_step by now rewrite Hms.
  rewrite Hrequest, app_bind_run.
  match goal with
  | |- context [process_user_input ?x (Build_app ?ss1 w ?t1 ?p1)] =>
      destruct (process_user_input_runs x a ss1 w t1 p1)
        as (reply & w' & t1' & t2 & t3 & t' & start & stop & -> & Hreply & Hchat & Hsame);
        [now rewrite Hms | exact Hexec |]
  end.
  rewrite Hms. exists reply, w', t1', t3, t'. eexists. exists start, stop.
  split; [| split; [exact Hreply | split; [exact Hchat | exact Hsame]]].
  unfold app_ret. f_equal. f_equal.
  match goal with
  | |- (?l ++ [?c1; ?c2; ?c3; ?r])%list = _ =>
      change (l ++ [c1; c2; c3; r])%list with (l ++ [c1; c2] ++ [c3; r])%list
  end.
  rewrite List.app_assoc. reflexivity.
Qed.

Lemma page_head_step {A} (k : App A) ss w t p :
  (page_head ~; k) (Build_app ss w t p) =
  k (Build_app ss w t [StatusBadge (agent_ready ss)]).
Proof. reflexivity. Qed.

(** A run of the script is the body of the page, on the session as the
    buttons leave it. *)
Lemma script_runs widgets ss w t p :
  script widgets (Build_app ss w t p) =
  page_body (negb (pressed widgets) && submit widgets)
    (if pressed widgets then EmptyString else user_input widgets)
    (Build_app (after_buttons widgets ss) w t [StatusBadge (agent_ready ss)]).
Proof.
  unfold script, pressed, after_buttons. rewrite page_head_step.
  destruct (clear_chat widgets).
  - now rewrite update_session_step, page_head_step.
  - destruct (toggle_guide widgets).
    + now rewrite update_session_step, page_head_step.
    + reflexivity.
Qed.

Lemma requests_spelt widgets :
  (negb (pressed widgets) && submit widgets)
    && negb (String.eqb (if pressed widgets then EmptyString else user_input widgets)
               EmptyString)
    && negb (String.eqb
               (str_strip (if pressed widgets then EmptyString else user_input widgets))
               EmptyString)
  = requests widgets.
Proof.
  unfold requests, pressed.
  destruct (clear_chat widgets); [reflexivity |].
  destruct (toggle_guide widgets); reflexivity.
Qed.

Lemma requests_text widgets :
  requests widgets = true ->
  (if pressed widgets then EmptyString else user_input widgets) = user_input widgets.
Proof.
  unfold requests, pressed.
  destruct (clear_chat widgets); [discriminate |].
  destruct (toggle_guide widgets); [discriminate | reflexivity].
Qed.

Lemma after_buttons_facts widgets ss :
  agent_ready (after_buttons widgets ss) = agent_ready ss
  /\ agent_executor (after_buttons widgets ss) = agent_executor ss
  /\ messages (after_buttons widgets ss) =
     (if clear_chat widgets then [] else messages ss).
Proof.
  unfold after_buttons. destruct (clear_chat widgets); [auto |].
  destruct (toggle_guide widgets); auto.
Qed.

Lemma after_buttons_stored widgets ss :
  forallb stored_message (messages ss) = true ->
  forallb stored_message (messages (after_buttons widgets ss)) = true.
Proof.
  destruct (after_buttons_facts widgets ss) as (_ & _ & ->).
  now destruct (clear_chat widgets).
Qed.

(** A run that hands a text to the agent: what the engine is sent, and what
    the page holds afterwards. *)
Lemma script_request a widgets ss w t p formatted_history :
  IMPORT_ERROR = None ->
  at_hand ss a ->
  forallb stored_message (messages ss) = true ->
  requests widgets = true ->
  format_history (history_of w) [] = Return formatted_history ->
  let request := {| input := str_strip (user_input widgets);
                    input_chat_history := formatted_history |} in
  calls (agent_module (snd (script widgets (Build_app ss w t p)))) =
  (calls w ++ Invoke request :: fst (invoke a request))%list
  /\ exists reply t1 t2,
       messages (session (snd (script widgets (Build_app ss w t p)))) =
       (messages ss
          ++ [message_dict "user" (PStr (str_strip (user_input widgets))) (clock t1);
              message_dict "assistant" (PStr reply) (clock t2)])%list.
Proof.
  intros Himport Ha Hstored Hrequests Hformat. cbv zeta.
  rewrite script_runs.
  destruct (after_buttons_facts widgets ss) as (Hr & Hx & Hms).
  assert (Hclear : clear_chat widgets = false).
  { unfold requests in Hrequests. now destruct (clear_chat widgets). }
  rewrite Hclear in Hms.
  assert (Ha' : at_hand (after_buttons widgets ss) a).
  { unfold at_hand. now rewrite Hr, Hx. }
  pose proof (requests_spelt widgets) as Hspelt. rewrite Hrequests in Hspelt.
  match goal with
  | |- context [page_body ?sub ?text (Build_app _ _ _ ?p1)] =>
      destruct (page_body_request a sub text _ w t p1 Ha') as
        (reply & w' & t1 & t3 & t' & before & start & stop & -> & Hreply & Hchat & _);
        [now rewrite Hms | exact Hspelt |]
  end.
  rewrite (requests_text widgets Hrequests) in *.
  specialize (Hchat Himport). rewrite chat_runs, Hformat in Hchat.
  cbn [executor_for] in Hchat. cbv zeta in Hchat.
  injection Hchat as _ Hw'.
  cbn [snd session agent_module messages with_messages]. split.
  - rewrite <- Hw'. unfold invoked. cbn [calls]. now rewrite <- List.app_assoc.
  - exists reply, t1, t3. now rewrite Hms.
Qed.

(** In a tidy session an executor is at hand or cannot be built. *)
Lemma at_hand_or_not ss :
  (agent_ready ss = true -> agent_executor ss <> None) ->
  (exists a, at_hand ss a) \/ (exists e, agent_ready ss = false /\ built_agent = Raise e).
Proof.
  intros Htidy. unfold at_hand. destruct (agent_ready ss) eqn:Hready.
  - destruct (agent_executor ss) as [a |]; [left; exists a; auto |].
    now contradiction Htidy.
  - destruct built_agent as [a | e]; [left; exists a; auto | right; exists e; auto].
Qed.

End PageRuns.

Section PageFacts.

Context {rt : Runtime} {sl : Streamlit}.

(** A run of the script never ends in an exception, whatever is pressed or
    submitted, whatever the agent does and whether or not it can be built:
    from a session as the script leaves it (the new one is such), the run
    goes through, with the agent ready, or stops at the initialization, with
    the agent not ready, and leaves such a session again. *)
Theorem page_never_crashes (w : widgets) (s : app) :
  tidy s ->
  exists e s',
    script w s = (Return e, s')
    /\ tidy s'
    /\ (e = Completed /\ agent_ready (session s') = true
        \/ e = Stopped /\ agent_ready (session s') = false).
Proof.
  destruct s as [ss w0 t p]. unfold tidy. cbn [session]. intros [Hstored Hready].
  rewrite script_runs.
  destruct (after_buttons_facts w ss) as (Hr & Hx & _).
  pose proof (after_buttons_stored w ss Hstored) as Hstored'.
  destruct (at_hand_or_not (after_buttons w ss)) as [[a Ha] | (e & Hnot & Hbuilt)].
  { now rewrite Hr, Hx. }
  - destruct (with_agent_facts _ a Ha) as (Hready' & Hexec' & Hms').
    match goal with
    | |- context [page_body ?sub ?text] =>
        destruct (sub && negb (String.eqb text EmptyString)
                    && negb (String.eqb (str_strip text) EmptyString)) eqn:Hrequest
    end.
    + destruct (page_body_request a _ _ _ w0 t [StatusBadge (agent_ready ss)]
                  Ha Hstored' Hrequest)
        as (reply & w' & t1 & t3 & t' & before & start & stop & -> & _).
      do 2 eexists. split; [reflexivity |]. cbn [session messages with_messages
        agent_ready agent_executor].
      split; [split |].
      * rewrite forallb_app, Hstored'. reflexivity.
      * intros _. now rewrite Hexec'.
      * left. auto.
    + rewrite (page_body_idle a) by assumption.
      do 2 eexists. split; [reflexivity |]. cbn [session].
      split; [split |].
      * now rewrite Hms'.
      * intros _. now rewrite Hexec'.
      * left. auto.
  - rewrite (page_body_stops e) by assumption.
    do 2 eexists. split; [reflexivity |].
    cbn [session messages with_last_error agent_ready agent_executor].
    split; [split |].
    + exact Hstored'.
    + intros H. now rewrite Hnot in H.
    + right. auto.
Qed.

(** With the agent ready, a text that is submitted is answered in that run:
    the page gains the two messages of the exchange and no other, the text
    stripped and then what [chat] returned for it, which is not empty and
    has taken the place of the notice that the search is on; the chat box
    ends up showing them, and the module [agent] is as [chat] left it. *)
Theorem request_is_answered (w : widgets) (s : app) (a : AgentExecutor) :
  IMPORT_ERROR = None ->
  tidy s ->
  agent_ready (session s) = true ->
  agent_executor (session s) = Some a ->
  requests w = true ->
  exists reply t1 t2 s',
    script w s = (Return Completed, s')
    /\ chat (str_strip (user_input w)) (Some (invoke a)) (agent_module s)
       = (Return (PStr reply), agent_module s')
    /\ reply <> EmptyString
    /\ messages (session s') =
       (messages (session s)
          ++ [message_dict "user" (PStr (str_strip (user_input w))) (clock t1);
              message_dict "assistant" (PStr reply) (clock t2)])%list
    /\ exists before start stop,
         page s' = (before ++ [Chatbox (chat_html (messages (session s')));
                               ResponseTime start stop])%list.
Proof.
  destruct s as [ss w0 t p]. unfold tidy. cbn [session agent_module].
  intros Himport [Hstored _] Hready Hexec Hrequests.
  rewrite script_runs.
  destruct (after_buttons_facts w ss) as (Hr & Hx & Hms).
  pose proof (after_buttons_stored w ss Hstored) as Hstored'.
  assert (Ha : at_hand (after_buttons w ss) a).
  { left. now rewrite Hr, Hx. }
  pose proof (requests_spelt w) as Hspelt. rewrite Hrequests in Hspelt.
  destruct (page_body_request a _ _ _ w0 t [StatusBadge (agent_ready ss)] Ha Hstored' Hspelt)
    as (reply & w' & t1 & t3 & t' & before & start & stop & -> & Hreply & Hchat & _).
  rewrite (requests_text w Hrequests) in *.
  assert (Hclear : clear_chat w = false).
  { unfold requests in Hrequests. now destruct (clear_chat w). }
  rewrite Hclear in Hms. rewrite Hms.
  exists reply, t1, t3. eexists. split; [reflexivity |].
  cbn [session agent_module page messages with_messages].
  split; [exact (Hchat Himport) |]. split; [exact Hreply |].
  split; [reflexivity |]. now exists before, start, stop.
Qed.

(** Unless a text is submitted that is not blank, a run leaves the module
    [agent] as it was, its history, its console and the calls on record:
    loading the page, pressing a button or submitting blanks never reaches
    the agent.  The messages of the page stay as they are too, unless
    'Clear Chat' is pressed, which leaves none. *)
Theorem only_a_request_reaches_the_agent (w : widgets) (s : app) :
  tidy s ->
  requests w = false ->
  agent_module (snd (script w s)) = agent_module s
  /\ messages (session (snd (script w s))) =
     (if clear_chat w then [] else messages (session s)).
Proof.
  destruct s as [ss w0 t p]. unfold tidy. cbn [session agent_module].
  intros [Hstored Hready] Hrequests.
  rewrite script_runs.
  destruct (after_buttons_facts w ss) as (Hr & Hx & Hms).
  pose proof (after_buttons_stored w ss Hstored) as Hstored'.
  pose proof (requests_spelt w) as Hspelt. rewrite Hrequests in Hspelt.
  destruct (at_hand_or_not (after_buttons w ss)) as [[a Ha] | (e & Hnot & Hbuilt)].
  { now rewrite Hr, Hx. }
  - rewrite (page_body_idle a) by assumption.
    destruct (with_agent_facts _ a Ha) as (_ & _ & Hms').
    cbn [snd session agent_module]. now rewrite Hms', Hms.
  - rewrite (page_body_stops e) by assumption.
    cbn [snd session agent_module messages with_last_error]. now rewrite Hms.
Qed.

(** 'Clear Chat' empties the page, not the memory of the agent: after it
    the page shows no message, and the next text is sent to the engine along
    with the turns of before, as [chat] renders them, while the page shows
    the new exchange alone. *)
Theorem clear_chat_keeps_memory (w1 w2 : widgets) (s : app) (a : AgentExecutor)
    (formatted_history : list message) :
  IMPORT_ERROR = None ->
  tidy s ->
  agent_ready (session s) = true ->
  agent_executor (session s) = Some a ->
  format_history (history_of (agent_module s)) [] = Return formatted_history ->
  clear_chat w1 = true ->
  requests w2 = true ->
  let s1 := snd (script w1 s) in
  let s2 := snd (script w2 s1) in
  let request := {| input := str_strip (user_input w2);
                    input_chat_history := formatted_history |} in
  messages (session s1) = []
  /\ agent_module s1 = agent_module s
  /\ calls (agent_module s2) =
     (calls (agent_module s) ++ Invoke request :: fst (invoke a request))%list
  /\ exists reply t1 t2,
       messages (session s2) =
       [message_dict "user" (PStr (str_strip (user_input w2))) (clock t1);
        message_dict "assistant" (PStr reply) (clock t2)].
Proof.
  destruct s as [ss w0 t p]. unfold tidy. cbn [session agent_module].
  intros Himport [Hstored _] Hready Hexec Hformat Hclear Hrequests. cbv zeta.
  rewrite script_runs.
  destruct (after_buttons_facts w1 ss) as (Hr & Hx & Hms). rewrite Hclear in Hms.
  pose proof (after_buttons_stored w1 ss Hstored) as Hstored'.
  assert (Ha : at_hand (after_buttons w1 ss) a).
  { left. now rewrite Hr, Hx. }
  pose proof (requests_spelt w1) as Hspelt.
  assert (Hidle : requests w1 = false).
  { unfold requests. now rewrite Hclear. }
  rewrite Hidle in Hspelt.
  rewrite (page_body_idle a) by assumption. cbn [snd session agent_module].
  destruct (with_agent_facts _ a Ha) as (Hready1 & Hexec1 & Hms1).
  rewrite Hms in Hms1.
  split; [exact Hms1 |]. split; [reflexivity |].
  match goal with
  | |- context [script w2 (Build_app ?ss1 _ ?t1 ?p1)] =>
      destruct (script_request a w2 ss1 w0 t1 p1 formatted_history Himport)
        as (Hcalls & reply & t2 & t3 & Hmessages);
        [left; auto | now rewrite Hms1 | assumption | assumption |]
  end.
  split; [exact Hcalls |]. exists reply, t2, t3. now rewrite Hmessages, Hms1.
Qed.

(** While the agent cannot be initialized (the module could not be imported,
    or [create_agent] raises, as it does for want of a key), every run stops
    at the initialization, whatever is pressed or submitted: it shows the
    failure and its cause, keeps the cause in the session, takes no text,
    leaves the module [agent] alone, and the agent stays not ready, so that
    the next run tries again. *)
Theorem failed_initialization_stops_page (w : widgets) (s : app) (e : exn) :
  agent_ready (session s) = false ->
  built_agent = Raise e ->
  exists s',
    script w s = (Return Stopped, s')
    /\ agent_module s' = agent_module s
    /\ agent_ready (session s') = false
    /\ last_error (session s') = Some (format_exc e)
    /\ messages (session s') = (if clear_chat w then [] else messages (session s))
    /\ page s' =
       (StatusBadge false :: guide (after_buttons w (session s)) ++ failure_notice e)%list.
Proof.
  destruct s as [ss w0 t p]. cbn [session agent_module]. intros Hready Hbuilt.
  rewrite script_runs.
  destruct (after_buttons_facts w ss) as (Hr & Hx & Hms).
  rewrite (page_body_stops e) by (try assumption; now rewrite Hr).
  eexists. split; [reflexivity |].
  cbn [session agent_module page messages agent_ready last_error with_last_error].
  rewrite Hr, Hready, Hms. auto.
Qed.

(** The history that [chat] keeps belongs to the process, not to the
    session: a visitor whose session is new, and whose page shows no
    message, has a first text sent to the engine along with the turns that
    earlier sessions left in the module. *)
Theorem history_is_shared_between_sessions (w : widgets) (s : app) (a : AgentExecutor)
    (formatted_history : list message) :
  IMPORT_ERROR = None ->
  create_agent = Return a ->
  format_history (history_of (agent_module s)) [] = Return formatted_history ->
  requests w = true ->
  let s1 := snd (script idle (new_visitor s)) in
  let s2 := snd (script w s1) in
  let request := {| input := str_strip (user_input w);
                    input_chat_history := formatted_history |} in
  messages (session s1) = []
  /\ calls (agent_module s2) =
     (calls (agent_module s) ++ Invoke request :: fst (invoke a request))%list
  /\ exists reply t1 t2,
       messages (session s2) =
       [message_dict "user" (PStr (str_strip (user_input w))) (clock t1);
        message_dict "assistant" (PStr reply) (clock t2)].
Proof.
  destruct s as [ss w0 t p]. unfold new_visitor. cbn [agent_module ticks].
  intros Himport Hcreate Hformat Hrequests. cbv zeta.
  assert (Ha : at_hand new_session a).
  { right. split; [reflexivity |]. unfold built_agent. now rewrite Himport. }
  rewrite script_runs.
  rewrite (page_body_idle a) by (try reflexivity; exact Ha).
  cbn [snd session agent_module].
  split; [reflexivity |].
  match goal with
  | |- context [script w (Build_app ?ss1 _ ?t1 ?p1)] =>
      destruct (script_request a w ss1 w0 t1 p1 formatted_history Himport)
        as (Hcalls & reply & t2 & t3 & Hmessages);
        [left; split; reflexivity | reflexivity | assumption | assumption |]
  end.
  split; [exact Hcalls |]. exists reply, t2, t3. exact Hmessages.
Qed.

End PageFacts.

(** The first run of a session on a machine without keys. *)
Lemma page_never_crashes_witness :
  exists e s',
    script (rt := offline) (sl := counting) idle new_app = (Return e, s')
    /\ tidy s'
    /\ (e = Completed /\ agent_ready (session s') = true
        \/ e = Stopped /\ agent_ready (session s') = false).
Proof.
  apply (page_never_crashes (rt := offline) (sl := counting) idle new_app).
  split; [reflexivity | discriminate].
Defined.

(** A request for science fiction. *)
Lemma request_is_answered_witness :
  exists reply t1 t2 s',
    script (rt := offline) (sl := counting) (submitting "sci-fi")
      (ready_app (telling "Try Dune.") initial_world) = (Return Completed, s')
    /\ chat (rt := offline) "sci-fi" (Some (invoke (rt := offline) (telling "Try Dune.")))
         initial_world = (Return (PStr reply), agent_module s')
    /\ reply <> EmptyString
    /\ messages (session s') =
       [message_dict "user" (PStr "sci-fi") (PInt (Z.of_nat t1));
        message_dict "assistant" (PStr reply) (PInt (Z.of_nat t2))]
    /\ exists before start stop,
         page s' = (before ++ [Chatbox (chat_html (sl := counting) (messages (session s')));
                               ResponseTime start stop])%list.
Proof.
  apply (request_is_answered (rt := offline) (sl := counting) (submitting "sci-fi")
           (ready_app (telling "Try Dune.") initial_world) (telling "Try Dune."));
    [reflexivity | split; [reflexivity | discriminate] | reflexivity | reflexivity
    | reflexivity].
Defined.

(** A form that is submitted empty. *)
Lemma only_a_request_reaches_the_agent_witness :
  agent_module (snd (script (rt := offline) (sl := counting) (submitting EmptyString)
                       (ready_app (telling "Try Dune.") initial_world)))
  = initial_world
  /\ messages (session (snd (script (rt := offline) (sl := counting)
                               (submitting EmptyString)
                               (ready_app (telling "Try Dune.") initial_world)))) = [].
Proof.
  apply (only_a_request_reaches_the_agent (rt := offline) (sl := counting)
           (submitting EmptyString) (ready_app (telling "Try Dune.") initial_world));
    [split; [reflexivity | discriminate] | reflexivity].
Defined.

(** One exchange, then 'Clear Chat', then a second request. *)
Lemma clear_chat_keeps_memory_witness :
  let s := ready_app (telling "Try Hyperion.")
             (after (rt := offline) [Say "sci-fi" (Some (answering "Try Dune."))]) in
  let s1 := snd (script (rt := offline) (sl := counting) clearing s) in
  let s2 := snd (script (rt := offline) (sl := counting) (submitting "more") s1) in
  let request := {| input := "more";
                    input_chat_history := [HumanMessage (PStr "sci-fi");
                                           AIMessage (PStr "Try Dune.")] |} in
  messages (session s1) = []
  /\ agent_module s1 = agent_module s
  /\ calls (agent_module s2) =
     (calls (agent_module s)
        ++ Invoke request :: fst (invoke (rt := offline) (telling "Try Hyperion.") request))%list
  /\ exists reply t1 t2,
       messages (session s2) =
       [message_dict "user" (PStr "more") (PInt (Z.of_nat t1));
        message_dict "assistant" (PStr reply) (PInt (Z.of_nat t2))].
Proof.
  apply (clear_chat_keeps_memory (rt := offline) (sl := counting) clearing (submitting "more")
           (ready_app (telling "Try Hyperion.")
              (after (rt := offline) [Say "sci-fi" (Some (answering "Try Dune."))]))
           (telling "Try Hyperion.")
           [HumanMessage (PStr "sci-fi"); AIMessage (PStr "Try Dune.")]);
    [reflexivity | split; [reflexivity | discriminate] | reflexivity | reflexivity
    | vm_compute; reflexivity | reflexivity | reflexivity].
Defined.

(** A machine without keys, and a text that is submitted all the same. *)
Lemma failed_initialization_stops_page_witness :
  exists s',
    script (rt := offline) (sl := counting) (submitting "sci-fi") new_app
    = (Return Stopped, s')
    /\ agent_module s' = initial_world
    /\ agent_ready (session s') = false
    /\ last_error (session s') =
       Some "Traceback (most recent call last): The api_key client option must be set"
    /\ messages (session s') = []
    /\ page s' =
       [ StatusBadge false; QuickStart; ErrorBox initialization_error;
         ErrorDetails "Traceback (most recent call last): The api_key client option must be set";
         Chatbox initialization_failed ].
Proof.
  apply (failed_initialization_stops_page (rt := offline) (sl := counting)
           (submitting "sci-fi") new_app
           (Exception "GroqError" "The api_key client option must be set"));
    reflexivity.
Defined.

(** One visitor asks for science fiction; the next one asks for more. *)
Lemma history_is_shared_between_sessions_witness :
  let rt := canned (Return (PList [])) in
  exists a,
    create_agent (rt := rt) = Return a
    /\ let s := snd (script (rt := rt) (sl := counting) (submitting "sci-fi")
                       (ready_app (telling "Try Dune.") initial_world)) in
       let s1 := snd (script (rt := rt) (sl := counting) idle (new_visitor s)) in
       let s2 := snd (script (rt := rt) (sl := counting) (submitting "more") s1) in
       let request := {| input := "more";
                         input_chat_history := [HumanMessage (PStr "sci-fi");
                                                AIMessage (PStr "Try Dune.")] |} in
       messages (session s1) = []
       /\ calls (agent_module s2) =
          (calls (agent_module s) ++ Invoke request :: fst (invoke (rt := rt) a request))%list
       /\ exists reply t1 t2,
            messages (session s2) =
            [message_dict "user" (PStr "more") (PInt (Z.of_nat t1));
             message_dict "assistant" (PStr reply) (PInt (Z.of_nat t2))].
Proof.
  intros rt. eexists. split; [reflexivity |].
  apply (history_is_shared_between_sessions (rt := rt) (sl := counting) (submitting "more")
           (snd (script (rt := rt) (sl := counting) (submitting "sci-fi")
                   (ready_app (telling "Try Dune.") initial_world))));
    [reflexivity | reflexivity | vm_compute; reflexivity | reflexivity].
Defined.
